(** * rsd2: the session-coordination core of the torrent downloader

    A shallow embedding of [rsd2v2.go] (and of [main.go], which has the same
    worker and handlers without the [completedFiles] map): the package-level
    maps, the [ProgressResponse] structs they point to, the mutex [mu], the
    unbuffered cancellation channels, the worker goroutine of
    [downloadHandler] ([downloadTorrent] and [downloadFile]) and the HTTP
    handlers.

    The goroutines are interleaved by an explicit scheduler: a run is a list
    of [Action]s, each of which lets one worker take one step or lets one
    request be served.  The torrent client, the file system and the
    scheduler are the environment. *)

From Stdlib Require Import ZArith Floats.SpecFloat.
From stdpp Require Import gmap strings list.

Open Scope Z_scope.

(** ** Machine arithmetic *)

Module Int64.

Definition max : Z := 2 ^ 63 - 1.
Definition min : Z := - 2 ^ 63.

(** Two's complement wrap-around of [int64] arithmetic. *)
Definition wrap (z : Z) : Z := (z + 2 ^ 63) mod 2 ^ 64 - 2 ^ 63.

Definition add (a b : Z) : Z := wrap (a + b).

End Int64.

Module Float64.

(** IEEE 754 binary64, on the Standard Library's [spec_float]. *)
Definition prec : Z := 53.
Definition emax : Z := 1024.

(** [float64(z)] for an integer [z]: round to nearest, ties to even. *)
Definition of_int (z : Z) : spec_float := binary_normalize prec emax z 0 false.

Definition div (x y : spec_float) : spec_float := SFdiv prec emax x y.
Definition mul (x y : spec_float) : spec_float := SFmul prec emax x y.

(** [int(f)] on a 64-bit platform: truncation toward zero.  When the value
    does not fit (also for infinities and NaN) Go leaves the result to the
    implementation; the gc compiler on amd64 yields the most negative
    integer, which is the value taken here. *)
Definition to_int (f : spec_float) : Z :=
  match f with
  | S754_zero _ => 0
  | S754_finite s m e =>
      let a := if 0 <=? e then Z.pos m * 2 ^ e else Z.pos m / 2 ^ (- e) in
      let v := if s then - a else a in
      if (Int64.min <=? v) && (v <=? Int64.max) then v else Int64.min
  | S754_infinity _ | S754_nan => Int64.min
  end.

End Float64.

(** ** Data *)

Record ProgressResponse := {
  Progress : Z;
  DownloadedBytes : Z;
  TotalSizeBytes : Z
}.

(** [&ProgressResponse{Progress: 0, DownloadedBytes: 0, TotalSizeBytes: 0}] *)
Definition zeroProgress : ProgressResponse :=
  {| Progress := 0; DownloadedBytes := 0; TotalSizeBytes := 0 |}.

(** [int(float64(d) / float64(t) * 100)] *)
Definition percentage (d t : Z) : Z :=
  Float64.to_int
    (Float64.mul (Float64.div (Float64.of_int d) (Float64.of_int t))
                 (Float64.of_int 100)).

(** The two assignments of [downloadFile] under [if n > 0]. *)
Definition advance (p : ProgressResponse) (n : Z) : ProgressResponse :=
  let d := Int64.add (DownloadedBytes p) n in
  {| Progress := percentage d (TotalSizeBytes p);
     DownloadedBytes := d;
     TotalSizeBytes := TotalSizeBytes p |}.

(** ** The torrent client, as the worker sees it *)

Inductive ioerr := EOF | ReadFailure.

(** One iteration of the read loop: what [reader.Read(buffer)] returns, and
    whether the [outFile.Write] of these bytes fails. *)
Record ReadResult := {
  rd_n : Z;
  rd_err : option ioerr;
  wr_fails : bool
}.

(** A reader whose script is used up is at the end of its stream. *)
Definition at_eof : ReadResult :=
  {| rd_n := 0; rd_err := Some EOF; wr_fails := false |}.

Inductive OpenResult := OpenOK | MkdirAllFails | CreateFails.

Record File := {
  f_Path : string;
  f_Length : Z;
  f_open : OpenResult;
  f_reads : list ReadResult
}.

(** What the client makes of a magnet URI. *)
Inductive Torrent :=
| NewClientFails
| AddMagnetFails
| InfoPending                      (* [<-t.GotInfo()] never delivers *)
| GotInfo (fs : list File).

(** The client's contract, on which the byte counts rest: [Read] returns a
    count [0 <= n], the reader of a file delivers no more than
    [file.Length()] bytes in all, and the lengths of a torrent's files add up
    within [int64]. *)
Definition sum_reads (rs : list ReadResult) : Z :=
  foldr (λ r acc, rd_n r + acc) 0 rs.

Definition sum_lengths (fs : list File) : Z :=
  foldr (λ f acc, f_Length f + acc) 0 fs.

Definition wf_reads (rs : list ReadResult) : Prop :=
  Forall (λ r, 0 ≤ rd_n r) rs.

Definition wf_file (f : File) : Prop :=
  wf_reads (f_reads f) ∧ sum_reads (f_reads f) ≤ f_Length f.

Definition wf_torrent (t : Torrent) : Prop :=
  match t with
  | GotInfo fs => Forall wf_file fs ∧ sum_lengths fs ≤ Int64.max
  | _ => True
  end.

(** ** Goroutines *)

(** Where a worker stands in [downloadTorrent] / [downloadFile]. *)
Inductive wpc :=
| AtStart
| AtFiles (rest : list File)
| AtSelect (filePath : string) (rs : list ReadResult) (rest : list File)
| AtRemove (filePath : string) (rest : list File)
| AtCleanup
| Exited.

Record Worker := {
  w_sessionID : string;
  w_torrent : Torrent;
  w_cancelChan : nat;
  w_progress : nat;
  w_pc : wpc
}.

(** [mu].  Every critical section but the one of [cancelHandler] runs to its
    end without waiting for another goroutine, and is one step here;
    [cancelHandler] waits inside it, on its channel send. *)
Inductive Mutex :=
| Unlocked
| CancelSending (sessionID : string) (cancelChan : nat)
| CancelSent (sessionID : string).

Record State := {
  progressMap : gmap string nat;
  downloadMap : gmap string nat;
  fileMap : gmap string string;
  completedFiles : gmap string string;
  mu : Mutex;
  heap : list ProgressResponse;
  chans : nat;
  workers : list Worker;
  storage : gset string;
  log : list string
}.

Definition init : State :=
  {| progressMap := ∅; downloadMap := ∅; fileMap := ∅; completedFiles := ∅;
     mu := Unlocked; heap := []; chans := 0%nat; workers := [];
     storage := ∅; log := [] |}.

Definition set_progressMap (m : gmap string nat) (st : State) : State :=
  {| progressMap := m; downloadMap := downloadMap st; fileMap := fileMap st;
     completedFiles := completedFiles st; mu := mu st; heap := heap st;
     chans := chans st; workers := workers st; storage := storage st;
     log := log st |}.

Definition set_downloadMap (m : gmap string nat) (st : State) : State :=
  {| progressMap := progressMap st; downloadMap := m; fileMap := fileMap st;
     completedFiles := completedFiles st; mu := mu st; heap := heap st;
     chans := chans st; workers := workers st; storage := storage st;
     log := log st |}.

Definition set_fileMap (m : gmap string string) (st : State) : State :=
  {| progressMap := progressMap st; downloadMap := downloadMap st; fileMap := m;
     completedFiles := completedFiles st; mu := mu st; heap := heap st;
     chans := chans st; workers := workers st; storage := storage st;
     log := log st |}.

Definition set_completedFiles (m : gmap string string) (st : State) : State :=
  {| progressMap := progressMap st; downloadMap := downloadMap st;
     fileMap := fileMap st; completedFiles := m; mu := mu st; heap := heap st;
     chans := chans st; workers := workers st; storage := storage st;
     log := log st |}.

Definition set_mu (m : Mutex) (st : State) : State :=
  {| progressMap := progressMap st; downloadMap := downloadMap st;
     fileMap := fileMap st; completedFiles := completedFiles st; mu := m;
     heap := heap st; chans := chans st; workers := workers st;
     storage := storage st; log := log st |}.

Definition set_heap (h : list ProgressResponse) (st : State) : State :=
  {| progressMap := progressMap st; downloadMap := downloadMap st;
     fileMap := fileMap st; completedFiles := completedFiles st; mu := mu st;
     heap := h; chans := chans st; workers := workers st;
     storage := storage st; log := log st |}.

Definition set_chans (c : nat) (st : State) : State :=
  {| progressMap := progressMap st; downloadMap := downloadMap st;
     fileMap := fileMap st; completedFiles := completedFiles st; mu := mu st;
     heap := heap st; chans := c; workers := workers st;
     storage := storage st; log := log st |}.

Definition set_workers (ws : list Worker) (st : State) : State :=
  {| progressMap := progressMap st; downloadMap := downloadMap st;
     fileMap := fileMap st; completedFiles := completedFiles st; mu := mu st;
     heap := heap st; chans := chans st; workers := ws;
     storage := storage st; log := log st |}.

Definition set_storage (s : gset string) (st : State) : State :=
  {| progressMap := progressMap st; downloadMap := downloadMap st;
     fileMap := fileMap st; completedFiles := completedFiles st; mu := mu st;
     heap := heap st; chans := chans st; workers := workers st;
     storage := s; log := log st |}.

Definition log_Printf (line : string) (st : State) : State :=
  {| progressMap := progressMap st; downloadMap := downloadMap st;
     fileMap := fileMap st; completedFiles := completedFiles st; mu := mu st;
     heap := heap st; chans := chans st; workers := workers st;
     storage := storage st; log := log st ++ [line] |}.

(** The struct a [*ProgressResponse] points to. *)
Definition deref (st : State) (l : nat) : ProgressResponse :=
  default zeroProgress (heap st !! l).

Definition with_pc (w : Worker) (pc : wpc) : Worker :=
  {| w_sessionID := w_sessionID w; w_torrent := w_torrent w;
     w_cancelChan := w_cancelChan w; w_progress := w_progress w;
     w_pc := pc |}.

(** Worker [i], whose record is [w], moves on to [pc]. *)
Definition set_pc (i : nat) (w : Worker) (pc : wpc) (st : State) : State :=
  set_workers (<[i := with_pc w pc]> (workers st)) st.

(** [os.Remove(filePath)] followed by the callers' common
    [if err != nil { log.Printf("Error deleting file: %v", err) }]. *)
Definition os_Remove (filePath : string) (st : State) : State :=
  if decide (filePath ∈ storage st)
  then set_storage (storage st ∖ {[filePath]}) st
  else log_Printf "Error deleting file" st.

(** [delete(progressMap, sessionID); delete(downloadMap, sessionID);
    delete(fileMap, sessionID)] *)
Definition delete_session (sessionID : string) (st : State) : State :=
  set_fileMap (delete sessionID (fileMap st))
    (set_downloadMap (delete sessionID (downloadMap st))
       (set_progressMap (delete sessionID (progressMap st)) st)).

(** ** HTTP *)

Inductive Body :=
| Text (msg : string)
| JSONProgress (p : ProgressResponse)
| JSONFiles (m : gmap string string)
| NoBody.

Record Response := { status : nat; body : Body }.

Definition StatusOK : nat := 200.
Definition StatusBadRequest : nat := 400.
Definition StatusNotFound : nat := 404.

Definition http_Error (msg : string) (code : nat) : Response :=
  {| status := code; body := Text msg |}.

(** What the scheduler may do next.  [POST_download] carries the torrent the
    client will make of the request's magnet URI. *)
Inductive Action :=
| Run (i : nat)
| GET_progress (sessionID : string)
| POST_download (sessionID : string) (t : Torrent)
| POST_cancel (sessionID : string)
| Resume_cancel
| GET_completed.

Section Server.

(** The [-dir] flag and [filepath.Join]. *)
Variable downloadDir : string.
Variable filepath_Join : string → string → string.

(** *** The worker *)

(** [for _, file := range t.Files() { totalSize += file.Length() }] *)
Definition totalSize (fs : list File) : Z :=
  fold_left (λ acc f, Int64.add acc (f_Length f)) fs 0.

(** [downloadTorrent] returns [err]; the goroutine logs the outcome and
    goes for the lock of its cleanup. *)
Definition return_err (i : nat) (w : Worker) (msg : string) (st : State) : State :=
  set_pc i w AtCleanup (log_Printf ("Error downloading torrent: " +:+ msg) st).

Definition is_unlocked (st : State) : bool :=
  match mu st with Unlocked => true | _ => false end.

(** The [default:] case of the select statement in [downloadFile]: one
    [reader.Read], the accounting and the write, and the tests on [err]. *)
Definition read_chunk (i : nat) (w : Worker) (filePath : string)
    (rs : list ReadResult) (rest : list File) (st : State) : State :=
  let r := hd at_eof rs in
  let st1 :=
    if 0 <? rd_n r
    then set_heap (<[w_progress w :=
                       advance (deref st (w_progress w)) (rd_n r)]> (heap st)) st
    else st in
  if (0 <? rd_n r) && wr_fails r
  then return_err i w "failed to write to file" st1
  else
    match rd_err r with
    | Some EOF =>
        (* break: leaves the select statement, not the for loop *)
        set_pc i w (AtSelect filePath (tl rs) rest) st1
    | Some ReadFailure => return_err i w "failed to read from torrent file" st1
    | None => set_pc i w (AtSelect filePath (tl rs) rest) st1
    end.

(** One step of worker [i], whose record is [w]; [None] when the worker
    cannot move (it waits for [mu] or for the torrent's info, or it has
    exited). *)
Definition worker_step (i : nat) (w : Worker) (st : State) : option State :=
  match w_pc w with
  | AtStart =>
      match w_torrent w with
      | NewClientFails => Some (return_err i w "failed to create torrent client" st)
      | AddMagnetFails => Some (return_err i w "failed to add magnet URI" st)
      | InfoPending => None
      | GotInfo fs =>
          let p := deref st (w_progress w) in
          let p' := {| Progress := Progress p;
                       DownloadedBytes := DownloadedBytes p;
                       TotalSizeBytes := totalSize fs |} in
          Some (set_pc i w (AtFiles fs)
                  (set_heap (<[w_progress w := p']> (heap st)) st))
      end
  | AtFiles [] =>
      (* // Mark the session as completed *)
      if is_unlocked st then
        let path := default "" (fileMap st !! w_sessionID w) in
        Some (set_pc i w AtCleanup
                (log_Printf "Torrent downloaded successfully"
                   (log_Printf ("Completed file added: " +:+ path)
                      (set_completedFiles
                         (<[w_sessionID w := path]> (completedFiles st)) st))))
      else None
  | AtFiles (f :: rest) =>
      (* downloadFile, up to its loop *)
      let filePath := filepath_Join downloadDir (f_Path f) in
      let st1 := set_fileMap (<[w_sessionID w := filePath]> (fileMap st)) st in
      match f_open f with
      | MkdirAllFails => Some (return_err i w "failed to create directory" st1)
      | CreateFails =>
          Some (return_err i w "failed to create file"
                  (log_Printf ("Attempting to create file: " +:+ filePath) st1))
      | OpenOK =>
          Some (set_pc i w (AtSelect filePath (f_reads f) rest)
                  (set_storage ({[filePath]} ∪ storage st1)
                     (log_Printf ("Attempting to create file: " +:+ filePath) st1)))
      end
  | AtSelect filePath rs rest =>
      match mu st with
      | CancelSending sessionID c =>
          if decide (c = w_cancelChan w)
          then
            (* case <-cancelChan: the send of cancelHandler completes *)
            Some (set_pc i w (AtRemove filePath rest)
                    (set_mu (CancelSent sessionID) st))
          else Some (read_chunk i w filePath rs rest st)
      | _ => Some (read_chunk i w filePath rs rest st)
      end
  | AtRemove filePath rest =>
      (* // Delete the file when canceled ... return nil *)
      Some (set_pc i w (AtFiles rest) (os_Remove filePath st))
  | AtCleanup =>
      if is_unlocked st
      then Some (set_pc i w Exited (delete_session (w_sessionID w) st))
      else None
  | Exited => None
  end.

(** *** The handlers

    A handler returns [None] while it waits for [mu]. *)

Definition progressHandler (sessionID : string) (st : State)
  : option (Response * State) :=
  if decide (sessionID = "")
  then Some (http_Error "sessionID is required" StatusBadRequest, st)
  else if is_unlocked st then
    match progressMap st !! sessionID with
    | None => Some (http_Error "session not found" StatusNotFound, st)
    | Some l =>
        Some ({| status := StatusOK; body := JSONProgress (deref st l) |}, st)
    end
  else None.

(** [go func() { ... }()] with its captured variables. *)
Definition spawn (sessionID : string) (t : Torrent) (cancelChan progress : nat)
    (st : State) : State :=
  set_workers
    (workers st ++ [{| w_sessionID := sessionID; w_torrent := t;
                       w_cancelChan := cancelChan; w_progress := progress;
                       w_pc := AtStart |}]) st.

Definition downloadHandler (sessionID : string) (t : Torrent) (st : State)
  : option (Response * State) :=
  if decide (sessionID = "")
  then Some (http_Error "sessionID is required" StatusBadRequest, st)
  else if is_unlocked st then
    let st1 :=
      match progressMap st !! sessionID with
      | Some _ => delete_session sessionID st
      | None => st
      end in
    let progress := length (heap st1) in
    let cancelChan := chans st1 in
    let st2 := set_heap (heap st1 ++ [zeroProgress]) st1 in
    let st3 := set_progressMap (<[sessionID := progress]> (progressMap st2)) st2 in
    let st4 := set_chans (S cancelChan) st3 in
    let st5 := set_downloadMap (<[sessionID := cancelChan]> (downloadMap st4)) st4 in
    Some ({| status := StatusOK; body := NoBody |},
          spawn sessionID t cancelChan progress st5)
  else None.

(** [cancelHandler] up to [cancelChan <- true]: either it answers at once,
    or it is left sending, with [mu] held. *)
Definition cancelHandler (sessionID : string) (st : State)
  : option (option Response * State) :=
  if decide (sessionID = "")
  then Some (Some (http_Error "sessionID is required" StatusBadRequest), st)
  else if is_unlocked st then
    match downloadMap st !! sessionID with
    | None =>
        Some (Some (http_Error "no download in progress for this session"
                      StatusNotFound), st)
    | Some cancelChan => Some (None, set_mu (CancelSending sessionID cancelChan) st)
    end
  else None.

(** [cancelHandler] after its send was received. *)
Definition cancelHandler_sent (st : State) : option (Response * State) :=
  match mu st with
  | CancelSent sessionID =>
      let st1 :=
        match fileMap st !! sessionID with
        | Some filePath =>
            let st' := os_Remove filePath st in
            set_fileMap (delete sessionID (fileMap st')) st'
        | None => st
        end in
      let st2 := set_heap (heap st1 ++ [zeroProgress]) st1 in
      let st3 := set_progressMap
                   (<[sessionID := length (heap st1)]> (progressMap st2)) st2 in
      Some ({| status := StatusOK; body := NoBody |}, set_mu Unlocked st3)
  | _ => None
  end.

Definition completedHandler (st : State) : option (Response * State) :=
  if is_unlocked st
  then Some ({| status := StatusOK; body := JSONFiles (completedFiles st) |}, st)
  else None.

(** *** The system *)

Definition step (a : Action) (st : State) : option (option Response * State) :=
  match a with
  | Run i =>
      match workers st !! i with
      | Some w => st' ← worker_step i w st; Some (None, st')
      | None => None
      end
  | GET_progress sessionID =>
      '(r, st') ← progressHandler sessionID st; Some (Some r, st')
  | POST_download sessionID t =>
      '(r, st') ← downloadHandler sessionID t st; Some (Some r, st')
  | POST_cancel sessionID => cancelHandler sessionID st
  | Resume_cancel =>
      '(r, st') ← cancelHandler_sent st; Some (Some r, st')
  | GET_completed =>
      '(r, st') ← completedHandler st; Some (Some r, st')
  end.

(** A schedule, run from [st]: the answers given, oldest first, and the
    state reached; [None] when the schedule asks for a step that cannot
    be taken. *)
Fixpoint run (acts : list Action) (st : State)
  : option (list (option Response) * State) :=
  match acts with
  | [] => Some ([], st)
  | a :: acts' =>
      '(r, st1) ← step a st;
      '(rs, st2) ← run acts' st1;
      Some (r :: rs, st2)
  end.

(** [GetProgress]: what a poller is told. *)
Definition GetProgress (sessionID : string) (st : State) : option ProgressResponse :=
  match progressHandler sessionID st with
  | Some ({| status := _; body := JSONProgress p |}, _) => Some p
  | _ => None
  end.

(** *** Reachable states *)

Definition wf_action (a : Action) : Prop :=
  match a with
  | POST_download _ t => wf_torrent t
  | _ => True
  end.

(** The states of the server when every torrent it is given keeps the
    client's contract. *)
Inductive reachable : State → Prop :=
| reachable_init : reachable init
| reachable_step a r st st' :
    reachable st → wf_action a → step a st = Some (r, st') → reachable st'.

(** No step changes the state any more. *)
Definition halted (st : State) : Prop :=
  ∀ a r st', step a st = Some (r, st') → st' = st.

End Server.

(** ** The invariant of the byte counts *)

(** A struct as a poller may see it. *)
Definition cell_ok (p : ProgressResponse) : Prop :=
  (0 < TotalSizeBytes p → DownloadedBytes p ≤ TotalSizeBytes p) ∧
  (TotalSizeBytes p = 0 → Progress p = 0).

(** The struct of a worker that may still add [budget] bytes. *)
Definition counts_ok (p : ProgressResponse) (budget : Z) : Prop :=
  0 ≤ DownloadedBytes p ∧
  DownloadedBytes p + budget ≤ TotalSizeBytes p ∧
  TotalSizeBytes p ≤ Int64.max ∧
  (DownloadedBytes p = 0 → Progress p = 0).

Definition worker_ok (w : Worker) (p : ProgressResponse) : Prop :=
  match w_pc w with
  | AtStart => p = zeroProgress ∧ wf_torrent (w_torrent w)
  | AtFiles rest | AtRemove _ rest =>
      Forall wf_file rest ∧ counts_ok p (sum_lengths rest)
  | AtSelect _ rs rest =>
      wf_reads rs ∧ Forall wf_file rest ∧
      counts_ok p (sum_reads rs + sum_lengths rest)
  | AtCleanup | Exited => True
  end.

Record Inv (h : list ProgressResponse) (ws : list Worker) : Prop := {
  inv_cells : ∀ l p, h !! l = Some p → cell_ok p;
  inv_workers : ∀ i w, ws !! i = Some w →
                ∃ p, h !! w_progress w = Some p ∧ worker_ok w p;
  inv_owner : ∀ i j wi wj, ws !! i = Some wi → ws !! j = Some wj →
              w_progress wi = w_progress wj → i = j
}.

(** ** Sample runs *)

Definition join (dir name : string) : string := dir +:+ "/" +:+ name.

Definition chunk (n : Z) : ReadResult :=
  {| rd_n := n; rd_err := None; wr_fails := false |}.

Definition file (name : string) (len : Z) (rs : list ReadResult) : File :=
  {| f_Path := name; f_Length := len; f_open := OpenOK; f_reads := rs |}.

(** One file of 3000 bytes, of which 1500 are read. *)
Definition half_way : list Action :=
  [POST_download "s" (GotInfo [file "a.mkv" 3000 [chunk 1000; chunk 500; chunk 1024; chunk 476]]);
   Run 0; Run 0; Run 0; Run 0].

(** One file of 100 bytes, of which 29 are read. *)
Definition twenty_nine : list Action :=
  [POST_download "s" (GotInfo [file "a.mkv" 100 [chunk 29; chunk 71]]);
   Run 0; Run 0; Run 0].

(** One file of 3 bytes, read to its end. *)
Definition read_to_end : list Action :=
  [POST_download "s" (GotInfo [file "a.mkv" 3 [chunk 3]]); Run 0; Run 0; Run 0].

(** One file, cancelled after its first chunk; the worker then runs on. *)
Definition cancel_one_file : list Action :=
  [POST_download "s" (GotInfo [file "a.mkv" 3000 [chunk 500; chunk 1024]]);
   Run 0; Run 0; Run 0;
   POST_cancel "s"; Run 0; Resume_cancel;
   Run 0; Run 0; Run 0].

(** Two files, and two cancel requests. *)
Definition cancel_twice : list Action :=
  [POST_download "s" (GotInfo [file "a.mkv" 1000 [chunk 500];
                               file "b.mkv" 2000 [chunk 1024]]);
   Run 0; Run 0; Run 0;
   POST_cancel "s"; Run 0; Resume_cancel;
   Run 0; Run 0;
   POST_cancel "s"; Run 0; Resume_cancel].

(** One file, cancelled; the second request comes before the worker's
    cleanup. *)
Definition cancel_again_early : list Action :=
  [POST_download "s" (GotInfo [file "a.mkv" 3000 [chunk 500]]);
   Run 0; Run 0; Run 0;
   POST_cancel "s"; Run 0; Resume_cancel;
   POST_cancel "s"; Run 0].


(** ** The rest of the server *)

(** The byte slice [s[n:]]. *)
Fixpoint string_from (n : nat) (s : string) : string :=
  match n, s with
  | O, _ => s
  | S n', String _ s' => string_from n' s'
  | S _, EmptyString => EmptyString
  end.

(** What [downloadCompletedHandler] does with a request: an error answer,
    or the call [http.ServeFile(w, r, filePath)] under the given
    Content-Disposition header. *)
Inductive Fetched :=
| FetchError (r : Response)
| ServeFile (contentDisposition filePath : string).

Section Fetch.

Variable downloadDir : string.
Variable filepath_Join : string → string → string.

(** What [os.Stat] makes of a path that is no file of [storage]: [true]
    when it does not answer "not exist" (the path is a directory, or the
    call fails otherwise). *)
Variable stat_other : string → bool.

(** [downloadCompletedHandler] of rsd2v2.go, for the path of a request that
    the mux routed to the pattern "/download/"; it takes no lock.  [None] is
    the panic of the slice expression on a shorter path. *)
Definition downloadCompletedHandler (urlPath : string) (st : State)
  : option Fetched :=
  if decide (String.length urlPath < String.length "/download/")%nat
  then None
  else
    let fileName := string_from (String.length "/download/") urlPath in
    let filePath := filepath_Join downloadDir fileName in
    if bool_decide (filePath ∈ storage st) || stat_other filePath
    then Some (ServeFile ("attachment; filename=" +:+ fileName) filePath)
    else Some (FetchError (http_Error "file not found" StatusNotFound)).

End Fetch.

(** [users] of main.go. *)
Definition users : gmap string string :=
  <["demo" := "password"]> (<["downloads" := "downloads"]> ∅).

(** What [basicAuth] of main.go makes of a request: the 401 answer with its
    WWW-Authenticate header, or the wrapped handler's own outcome. *)
Inductive Guarded (A : Type) :=
| Denied (header : string * string) (r : Response)
| Passed (a : A).

Arguments Denied {A} header r.
Arguments Passed {A} a.

Definition StatusUnauthorized : nat := 401.

(** [basicAuth]; [auth] is [r.BasicAuth()] ([None] for [ok == false]),
    [table] the map [users], and [handler] what [handler(w, r)] does.  A name
    that is not in the map reads as the empty string. *)
Definition basicAuth {A : Type} (table : gmap string string)
    (auth : option (string * string)) (handler : A) : Guarded A :=
  let quote := String (Ascii.ascii_of_nat 34) "" in
  let newline := String (Ascii.ascii_of_nat 10) "" in
  let refuse :=
    Denied ("WWW-Authenticate",
            "Basic realm=" +:+ quote +:+
            "Please enter your username and password." +:+ quote)
      {| status := StatusUnauthorized;
         body := Text ("Unauthorized" +:+ newline) |} in
  match auth with
  | None => refuse
  | Some (user, pass) =>
      if decide (default "" (table !! user) = pass) then Passed handler
      else refuse
  end.

(** ** The registry *)

(** The session a step acts for. *)
Definition actor (a : Action) (st : State) : option string :=
  match a with
  | Run i => w_sessionID <$> workers st !! i
  | GET_progress sessionID | POST_download sessionID _ | POST_cancel sessionID =>
      Some sessionID
  | Resume_cancel =>
      match mu st with CancelSent sessionID => Some sessionID | _ => None end
  | GET_completed => None
  end.

(** How the maps, the channels and the structs hang together. *)
Record Reg (st : State) : Prop := {
  reg_chan : ∀ i w, workers st !! i = Some w → (w_cancelChan w < chans st)%nat;
  reg_cell : ∀ i w, workers st !! i = Some w →
             (w_progress w < length (heap st))%nat;
  reg_chan_owner : ∀ i j wi wj, workers st !! i = Some wi →
                   workers st !! j = Some wj →
                   w_cancelChan wi = w_cancelChan wj → i = j;
  reg_download : ∀ sid c, downloadMap st !! sid = Some c →
                 (c < chans st)%nat ∧
                 ∀ i w, workers st !! i = Some w → w_cancelChan w = c →
                        w_sessionID w = sid;
  reg_sending : ∀ sid c, mu st = CancelSending sid c →
                (c < chans st)%nat ∧
                ∀ i w, workers st !! i = Some w → w_cancelChan w = c →
                       w_sessionID w = sid;
  reg_progress : ∀ sid l, progressMap st !! sid = Some l →
                 (l < length (heap st))%nat ∧
                 ∀ i w, workers st !! i = Some w → w_progress w = l →
                        w_sessionID w = sid
}.

(** A channel that is in no [downloadMap] entry and on which nobody sends
    stays so: a channel is registered once, when it is made. *)
Definition unregistered (c : nat) (st : State) : Prop :=
  (c < chans st)%nat ∧
  (∀ s, downloadMap st !! s ≠ Some c) ∧
  (∀ s, mu st ≠ CancelSending s c).

(** A poller of the session is shown a zeroed struct that no worker
    holds. *)
Definition shows_zero (sid : string) (st : State) : Prop :=
  ∀ l, progressMap st !! sid = Some l →
       heap st !! l = Some zeroProgress ∧
       ∀ i w, workers st !! i = Some w → w_progress w ≠ l.

(** A cancel request for [sid] is sending on [c], the channel of worker
    [i], which waits for the info of its torrent. *)
Definition stuck_at_info (sid : string) (c i : nat) (st : State) : Prop :=
  mu st = CancelSending sid c ∧
  ∃ w, workers st !! i = Some w ∧ w_cancelChan w = c ∧
       w_pc w = AtStart ∧ w_torrent w = InfoPending.

(** ** More sample runs *)

(** The session of [half_way] is sent a cancel request. *)
Definition cancel_sending : list Action := half_way ++ [POST_cancel "s"].

(** ... and its worker has received the signal. *)
Definition cancel_received : list Action :=
  half_way ++ [POST_cancel "s"; Run 0].

(** Two sessions side by side. *)
Definition two_sessions : list Action :=
  [POST_download "s" (GotInfo [file "a.mkv" 3000 [chunk 1000; chunk 500]]);
   POST_download "t" (GotInfo [file "b.mkv" 100 [chunk 29]]);
   Run 0; Run 0; Run 1; Run 1; Run 1].

(** The read of a session fails; the session is started again before the
    first worker has cleaned up. *)
Definition failed_then_restarted : list Action :=
  [POST_download "s"
     (GotInfo [file "a.mkv" 3000
                 [{| rd_n := 0; rd_err := Some ReadFailure; wr_fails := false |}]]);
   Run 0; Run 0; Run 0;
   POST_download "s" (GotInfo [file "b.mkv" 10 [chunk 10]])].

(** A torrent without files. *)
Definition empty_torrent : list Action := [POST_download "s" (GotInfo [])].

(** Two files; the session is to be cancelled at the first. *)
Definition two_files : list Action :=
  [POST_download "s" (GotInfo [file "a.mkv" 1000 [chunk 500];
                               file "b.mkv" 2000 [chunk 1024]]);
   Run 0; Run 0; Run 0].

(** A torrent whose info does not arrive. *)
Definition no_info : list Action := [POST_download "s" InfoPending].

(** * Properties *)

(** ** Arithmetic *)

Lemma wrap_in_range (z : Z) :
  Int64.min ≤ z ≤ Int64.max → Int64.wrap z = z.
Proof.
  unfold Int64.wrap, Int64.min, Int64.max. intros Hz.
  rewrite Z.mod_small; lia.
Qed.

Lemma sum_reads_nonneg (rs : list ReadResult) :
  wf_reads rs → 0 ≤ sum_reads rs.
Proof.
  induction 1 as [|r rs Hr _ IH]; simpl; [lia|].
  fold (sum_reads rs). lia.
Qed.

Lemma wf_file_length (f : File) : wf_file f → 0 ≤ f_Length f.
Proof. intros [Hrs Hle]. pose proof (sum_reads_nonneg _ Hrs). lia. Qed.

Lemma sum_lengths_nonneg (fs : list File) :
  Forall wf_file fs → 0 ≤ sum_lengths fs.
Proof.
  induction 1 as [|f fs Hf _ IH]; simpl; [lia|].
  fold (sum_lengths fs). pose proof (wf_file_length _ Hf). lia.
Qed.

Lemma totalSize_from (fs : list File) (acc : Z) :
  Forall wf_file fs → 0 ≤ acc → acc + sum_lengths fs ≤ Int64.max →
  fold_left (λ a f, Int64.add a (f_Length f)) fs acc = acc + sum_lengths fs.
Proof.
  intros Hfs. revert acc.
  induction Hfs as [|f fs Hf Hfs IH]; intros acc Hacc Hmax; simpl in *; [lia|].
  fold (sum_lengths fs) in *.
  pose proof (wf_file_length _ Hf) as Hlen.
  pose proof (sum_lengths_nonneg _ Hfs) as Hsum.
  unfold Int64.add at 2. rewrite wrap_in_range by (unfold Int64.min; lia).
  rewrite IH by lia. lia.
Qed.

Lemma totalSize_sum (fs : list File) :
  Forall wf_file fs → sum_lengths fs ≤ Int64.max →
  totalSize fs = sum_lengths fs.
Proof.
  intros Hfs Hmax. unfold totalSize.
  rewrite totalSize_from by (try done; lia). lia.
Qed.

(** ** The invariant holds in every reachable state *)

Lemma cell_ok_zero : cell_ok zeroProgress.
Proof. split; simpl; intros; lia. Qed.

Lemma counts_cell_ok (p : ProgressResponse) (b : Z) :
  0 ≤ b → counts_ok p b → cell_ok p.
Proof.
  intros Hb (HD & Hle & _ & Hzero). split; [lia|].
  intros HT. apply Hzero. lia.
Qed.

Lemma Inv_init : Inv [] [].
Proof. split; intros *; rewrite ?lookup_nil; done. Qed.

Lemma Inv_alloc (h : list ProgressResponse) (ws : list Worker) :
  Inv h ws → Inv (h ++ [zeroProgress]) ws.
Proof.
  intros [Hc Hw Ho]. split; [| |done].
  - intros l p [Hl|[_ Hl]]%lookup_app_Some; [by eapply Hc|].
    apply list_lookup_singleton_Some in Hl as [_ <-]. apply cell_ok_zero.
  - intros i w Hi. destruct (Hw i w Hi) as (p & Hp & Hok).
    exists p. split; [|done]. by apply lookup_app_l_Some.
Qed.

Lemma Inv_spawn (h : list ProgressResponse) (ws : list Worker)
    (sid : string) (t : Torrent) (c : nat) :
  Inv h ws → wf_torrent t →
  Inv (h ++ [zeroProgress])
      (ws ++ [{| w_sessionID := sid; w_torrent := t; w_cancelChan := c;
                 w_progress := length h; w_pc := AtStart |}]).
Proof.
  intros HI Ht. destruct (Inv_alloc _ _ HI) as [Hc Hw Ho].
  assert (Hlt : ∀ i w, ws !! i = Some w → (w_progress w < length h)%nat).
  { intros i w Hi. destruct (inv_workers _ _ HI i w Hi) as (p & Hp & _).
    by eapply lookup_lt_Some. }
  split; [done| |].
  - intros i w [Hi|[_ Hi]]%lookup_app_Some; [by eapply Hw|].
    apply list_lookup_singleton_Some in Hi as [_ <-]. simpl.
    exists zeroProgress. split; [|done].
    by rewrite lookup_app_r, Nat.sub_diag.
  - intros i j wi wj [Hi|[Hil Hi]]%lookup_app_Some [Hj|[Hjl Hj]]%lookup_app_Some Heq.
    + by eapply Ho.
    + apply list_lookup_singleton_Some in Hj as [_ <-]. simpl in Heq.
      apply Hlt in Hi. lia.
    + apply list_lookup_singleton_Some in Hi as [_ <-]. simpl in Heq.
      apply Hlt in Hj. lia.
    + apply list_lookup_singleton_Some in Hi as [Hi _].
      apply list_lookup_singleton_Some in Hj as [Hj _]. lia.
Qed.

Lemma Inv_move (h : list ProgressResponse) (ws : list Worker)
    (i : nat) (w : Worker) (pc : wpc) (p' : ProgressResponse) :
  Inv h ws → ws !! i = Some w →
  cell_ok p' → worker_ok (with_pc w pc) p' →
  Inv (<[w_progress w := p']> h) (<[i := with_pc w pc]> ws).
Proof.
  intros [Hc Hw Ho] Hi Hcell Hok.
  destruct (Hw i w Hi) as (p & Hp & _).
  pose proof (lookup_lt_Some _ _ _ Hp) as Hlt.
  split.
  - intros l q [(_ & <- & _)|[_ Hl]]%list_lookup_insert_Some; [done|by eapply Hc].
  - intros j wj [(<- & <- & _)|[Hne Hj]]%list_lookup_insert_Some.
    + exists p'. split; [|done]. simpl. by apply list_lookup_insert_eq.
    + destruct (Hw j wj Hj) as (q & Hq & Hokq). exists q. split; [|done].
      rewrite list_lookup_insert_ne; [done|].
      intros Heq. apply Hne. by eapply Ho.
  - intros j k wj wk Hj Hk Heq.
    assert (Hold : ∀ n v, <[i:=with_pc w pc]> ws !! n = Some v →
                   ∃ v', ws !! n = Some v' ∧ w_progress v' = w_progress v).
    { intros n v [(<- & <- & _)|[_ Hn]]%list_lookup_insert_Some; eauto. }
    destruct (Hold _ _ Hj) as (wj' & Hj' & Ej).
    destruct (Hold _ _ Hk) as (wk' & Hk' & Ek).
    eapply Ho; [done..|congruence].
Qed.

Lemma Inv_move_same (h : list ProgressResponse) (ws : list Worker)
    (i : nat) (w : Worker) (pc : wpc) (p : ProgressResponse) :
  Inv h ws → ws !! i = Some w → h !! w_progress w = Some p →
  worker_ok (with_pc w pc) p →
  Inv h (<[i := with_pc w pc]> ws).
Proof.
  intros HI Hi Hp Hok.
  rewrite <- (list_insert_id h (w_progress w) p Hp).
  apply Inv_move; [done..| |done]. by eapply inv_cells.
Qed.

Lemma heap_os_Remove (path : string) (st : State) :
  heap (os_Remove path st) = heap st.
Proof. unfold os_Remove. by case_decide. Qed.

Lemma workers_os_Remove (path : string) (st : State) :
  workers (os_Remove path st) = workers st.
Proof. unfold os_Remove. by case_decide. Qed.

Lemma deref_lookup (st : State) (l : nat) (p : ProgressResponse) :
  heap st !! l = Some p → deref st l = p.
Proof. unfold deref. by intros ->. Qed.

Lemma advance_counts (p : ProgressResponse) (n b : Z) :
  0 < n → 0 ≤ b → counts_ok p (n + b) →
  counts_ok (advance p n) b ∧ cell_ok (advance p n).
Proof.
  intros Hn Hb (HD & Hle & Hmax & Hzero).
  assert (Hadd : Int64.add (DownloadedBytes p) n = DownloadedBytes p + n).
  { apply wrap_in_range. unfold Int64.min. lia. }
  assert (Hc : counts_ok (advance p n) b).
  { unfold counts_ok, advance. simpl. rewrite Hadd. repeat split; lia. }
  split; [done|]. exact (counts_cell_ok _ _ Hb Hc).
Qed.

Section Invariant.

Variable downloadDir : string.
Variable filepath_Join : string → string → string.

Ltac moved Hp :=
  simpl; rewrite ?heap_os_Remove, ?workers_os_Remove;
  eapply Inv_move_same; [done|done|exact Hp|].

Lemma read_chunk_Inv (i : nat) (w : Worker) (filePath : string)
    (rs : list ReadResult) (rest : list File) (st : State) :
  Inv (heap st) (workers st) → workers st !! i = Some w →
  w_pc w = AtSelect filePath rs rest →
  let st' := read_chunk i w filePath rs rest st in
  Inv (heap st') (workers st').
Proof.
  intros HI Hi Hpc.
  destruct (inv_workers _ _ HI i w Hi) as (p & Hp & Hok).
  unfold worker_ok in Hok. rewrite Hpc in Hok.
  destruct Hok as (Hrs & Hrest & Hcnt).
  pose proof (sum_lengths_nonneg _ Hrest) as Hsum.
  unfold read_chunk. destruct rs as [|r rs]; simpl.
  { moved Hp. unfold worker_ok. simpl. done. }
  apply Forall_cons in Hrs as [Hr Hrs].
  pose proof (sum_reads_nonneg _ Hrs) as Hsumr.
  simpl in Hcnt. fold (sum_reads rs) in Hcnt.
  destruct (0 <? rd_n r) eqn:Hn; simpl.
  - apply Z.ltb_lt in Hn.
    rewrite (deref_lookup _ _ _ Hp).
    destruct (advance_counts p (rd_n r) (sum_reads rs + sum_lengths rest))
      as [Hc' Hcell]; [lia|lia| |].
    { destruct Hcnt as (? & ? & ? & ?). repeat split; try done; lia. }
    destruct (wr_fails r); [|destruct (rd_err r) as [[]|]];
      simpl; apply Inv_move; try done; unfold worker_ok; simpl; done.
  - apply Z.ltb_ge in Hn. assert (rd_n r = 0) as Hz by lia.
    rewrite Hz in Hcnt.
    destruct (rd_err r) as [[]|]; moved Hp; unfold worker_ok; simpl; done.
Qed.

Lemma worker_step_Inv (i : nat) (w : Worker) (st st' : State) :
  Inv (heap st) (workers st) → workers st !! i = Some w →
  worker_step downloadDir filepath_Join i w st = Some st' →
  Inv (heap st') (workers st').
Proof.
  intros HI Hi Hstep.
  destruct (inv_workers _ _ HI i w Hi) as (p & Hp & Hok).
  unfold worker_ok in Hok. unfold worker_step in Hstep.
  destruct (w_pc w) as [|[|f rest]|filePath rs rest|filePath rest| |] eqn:Hpc.
  - (* AtStart *)
    destruct Hok as [-> Ht].
    destruct (w_torrent w) as [| | |fs]; simplify_eq;
      try (moved Hp; done).
    destruct Ht as [Hfs Hmax].
    rewrite (deref_lookup _ _ _ Hp). simpl.
    rewrite (totalSize_sum _ Hfs Hmax).
    pose proof (sum_lengths_nonneg _ Hfs).
    assert (counts_ok {| Progress := 0; DownloadedBytes := 0;
                         TotalSizeBytes := sum_lengths fs |} (sum_lengths fs)).
    { repeat split; simpl; lia. }
    apply Inv_move; [done..| |].
    + eapply counts_cell_ok; [|done]. done.
    + unfold worker_ok. simpl. done.
  - (* AtFiles [] *)
    destruct (is_unlocked st); simplify_eq. moved Hp. done.
  - (* AtFiles (f :: rest) *)
    destruct Hok as [[[Hrs Hlen] Hrest]%Forall_cons Hcnt].
    simpl in Hcnt. fold (sum_lengths rest) in Hcnt.
    destruct (f_open f); simplify_eq; moved Hp; try done.
    unfold worker_ok. simpl. repeat split; try done;
      destruct Hcnt as (? & ? & ? & ?); try done; lia.
  - (* AtSelect *)
    destruct Hok as (Hrs & Hrest & Hcnt).
    pose proof (sum_reads_nonneg _ Hrs).
    assert (Hrecv : worker_ok (with_pc w (AtRemove filePath rest)) p).
    { unfold worker_ok. simpl. split; [done|].
      destruct Hcnt as (? & ? & ? & ?). repeat split; try done; lia. }
    destruct (mu st) as [|sid c|sid];
      [|destruct (decide (c = w_cancelChan w))|]; simplify_eq;
      try (by apply read_chunk_Inv);
      moved Hp; done.
  - (* AtRemove *)
    simplify_eq. moved Hp. done.
  - (* AtCleanup *)
    destruct (is_unlocked st); simplify_eq. moved Hp. done.
  - done.
Qed.

Lemma step_Inv (a : Action) (r : option Response) (st st' : State) :
  wf_action a → Inv (heap st) (workers st) →
  step downloadDir filepath_Join a st = Some (r, st') →
  Inv (heap st') (workers st').
Proof.
  intros Ha HI Hstep. destruct a as [i|sid|sid t|sid| |]; simpl in Hstep.
  - destruct (workers st !! i) as [w|] eqn:Hi; [|done].
    destruct (worker_step _ _ i w st) as [st1|] eqn:Hw; simplify_eq/=.
    by eapply worker_step_Inv.
  - unfold progressHandler in Hstep.
    repeat (case_match; simplify_eq/=); done.
  - unfold downloadHandler in Hstep.
    repeat (case_match; simplify_eq/=); try done; by apply Inv_spawn.
  - unfold cancelHandler in Hstep.
    repeat (case_match; simplify_eq/=); done.
  - unfold cancelHandler_sent in Hstep.
    repeat (case_match; simplify_eq/=);
      rewrite ?heap_os_Remove, ?workers_os_Remove; by apply Inv_alloc.
  - unfold completedHandler in Hstep.
    repeat (case_match; simplify_eq/=); done.
Qed.

Lemma reachable_Inv (st : State) :
  reachable downloadDir filepath_Join st → Inv (heap st) (workers st).
Proof.
  induction 1 as [|a r st st' _ IH Ha Hstep]; [apply Inv_init|].
  by eapply step_Inv.
Qed.

End Invariant.

(** ** Schedules *)

Section Schedules.

Variable downloadDir : string.
Variable filepath_Join : string → string → string.

Local Abbreviation step := (step downloadDir filepath_Join).
Local Abbreviation run := (run downloadDir filepath_Join).
Local Abbreviation reachable := (reachable downloadDir filepath_Join).
Local Abbreviation halted := (halted downloadDir filepath_Join).

Lemma run_app (acts1 acts2 : list Action) (st : State) :
  run (acts1 ++ acts2) st =
  '(rs1, st1) ← run acts1 st;
  '(rs2, st2) ← run acts2 st1;
  Some (rs1 ++ rs2, st2).
Proof.
  revert st. induction acts1 as [|a acts1 IH]; intros st; simpl.
  - by destruct (run acts2 st) as [[rs2 st2]|].
  - destruct (step a st) as [[r st1]|]; simpl; [|done].
    rewrite IH. destruct (run acts1 st1) as [[rs1 st1']|]; simpl; [|done].
    by destruct (run acts2 st1') as [[rs2 st2]|].
Qed.

Lemma run_cons (a : Action) (acts : list Action) (st st1 st2 : State)
    (r : option Response) (rs : list (option Response)) :
  step a st = Some (r, st1) → run acts st1 = Some (rs, st2) →
  run (a :: acts) st = Some (r :: rs, st2).
Proof. intros H1 H2. simpl. rewrite H1. simpl. by rewrite H2. Qed.

Lemma run_reachable (acts : list Action) (st st' : State)
    (rs : list (option Response)) :
  reachable st → Forall wf_action acts → run acts st = Some (rs, st') →
  reachable st'.
Proof.
  intros Hst Hacts. revert st rs Hst.
  induction Hacts as [|a acts Ha _ IH]; intros st rs Hst Hrun; simpl in Hrun.
  - by simplify_eq.
  - destruct (step a st) as [[r st1]|] eqn:Hstep; simpl in Hrun; [|done].
    destruct (run acts st1) as [[rs1 st2]|] eqn:Hrest; simplify_eq/=.
    eapply IH; [|done]. by eapply reachable_step.
Qed.

Lemma halted_run (acts : list Action) (st st' : State)
    (rs : list (option Response)) :
  halted st → run acts st = Some (rs, st') → st' = st.
Proof.
  intros Hst. revert rs.
  induction acts as [|a acts IH]; intros rs Hrun; simpl in Hrun.
  - by simplify_eq.
  - destruct (step a st) as [[r st1]|] eqn:Hstep; simpl in Hrun; [|done].
    apply Hst in Hstep as ->.
    destruct (run acts st) as [[rs1 st2]|] eqn:Hrest; simplify_eq/=.
    by eapply IH.
Qed.

(** While [cancelHandler] is sending and no worker can move, nothing
    moves. *)
Lemma sending_halted (st : State) (sid : string) (c : nat) :
  mu st = CancelSending sid c →
  (∀ i w, workers st !! i = Some w →
          worker_step downloadDir filepath_Join i w st = None) →
  halted st.
Proof.
  intros Hmu Hws a r st' Hstep.
  destruct a as [i|s|s t|s| |]; simpl in Hstep.
  - destruct (workers st !! i) as [w|] eqn:Hi; [|done].
    by rewrite (Hws i w Hi) in Hstep.
  - unfold progressHandler, is_unlocked in Hstep. rewrite Hmu in Hstep.
    by case_decide; simplify_eq/=.
  - unfold downloadHandler, is_unlocked in Hstep. rewrite Hmu in Hstep.
    by case_decide; simplify_eq/=.
  - unfold cancelHandler, is_unlocked in Hstep. rewrite Hmu in Hstep.
    by case_decide; simplify_eq/=.
  - unfold cancelHandler_sent in Hstep. by rewrite Hmu in Hstep.
  - unfold completedHandler, is_unlocked in Hstep. by rewrite Hmu in Hstep.
Qed.

Lemma with_pc_same (w : Worker) : with_pc w (w_pc w) = w.
Proof. by destruct w. Qed.

Lemma set_pc_same (i : nat) (w : Worker) (st : State) :
  workers st !! i = Some w → set_pc i w (w_pc w) st = st.
Proof.
  intros Hi. unfold set_pc. rewrite with_pc_same, list_insert_id by done.
  by destruct st.
Qed.

(** At the end of the stream the read loop goes round without a change:
    [break] ends the select statement only. *)
Lemma eof_spins (i : nat) (w : Worker) (filePath : string)
    (rest : list File) (st : State) :
  workers st !! i = Some w → w_pc w = AtSelect filePath [] rest →
  (∀ sid, mu st ≠ CancelSending sid (w_cancelChan w)) →
  worker_step downloadDir filepath_Join i w st = Some st.
Proof.
  intros Hi Hpc Hmu.
  assert (Hread : read_chunk i w filePath [] rest st = st).
  { unfold read_chunk. simpl. rewrite <- Hpc. by apply set_pc_same. }
  unfold worker_step. rewrite Hpc.
  destruct (mu st) as [|sid c|sid] eqn:Hst; [by rewrite Hread| |by rewrite Hread].
  case_decide as Hc; [|by rewrite Hread].
  subst c. by destruct (Hmu sid).
Qed.

Lemma eof_spins_run (i : nat) (w : Worker) (filePath : string)
    (rest : list File) (st : State) (n : nat) :
  workers st !! i = Some w → w_pc w = AtSelect filePath [] rest →
  (∀ sid, mu st ≠ CancelSending sid (w_cancelChan w)) →
  run (replicate n (Run i)) st = Some (replicate n None, st).
Proof.
  intros Hi Hpc Hmu. induction n as [|n IH]; simpl; [done|].
  rewrite Hi. simpl. rewrite (eof_spins i w filePath rest st) by done.
  simpl. by rewrite IH.
Qed.

End Schedules.

(** ** What a step leaves alone *)

Lemma os_Remove_frame (path : string) (st : State) :
  mu (os_Remove path st) = mu st ∧
  progressMap (os_Remove path st) = progressMap st ∧
  downloadMap (os_Remove path st) = downloadMap st ∧
  fileMap (os_Remove path st) = fileMap st ∧
  completedFiles (os_Remove path st) = completedFiles st.
Proof. unfold os_Remove. by case_decide. Qed.

Lemma read_chunk_frame (i : nat) (w : Worker) (filePath : string)
    (rs : list ReadResult) (rest : list File) (st : State) :
  let st' := read_chunk i w filePath rs rest st in
  mu st' = mu st ∧
  progressMap st' = progressMap st ∧
  downloadMap st' = downloadMap st ∧
  fileMap st' = fileMap st ∧
  completedFiles st' = completedFiles st.
Proof. unfold read_chunk. by repeat (case_match; simpl). Qed.

Lemma read_chunk_heap (i : nat) (w : Worker) (filePath : string)
    (r : ReadResult) (rs : list ReadResult) (rest : list File) (st : State)
    (p : ProgressResponse) :
  heap st !! w_progress w = Some p → 0 < rd_n r →
  heap (read_chunk i w filePath (r :: rs) rest st) !! w_progress w
  = Some (advance p (rd_n r)).
Proof.
  intros Hp Hn. apply Z.ltb_lt in Hn.
  unfold read_chunk. simpl. rewrite Hn, (deref_lookup _ _ _ Hp).
  pose proof (lookup_lt_Some _ _ _ Hp).
  by repeat (case_match; simpl); apply list_lookup_insert_eq.
Qed.

(** Without the client's contract the accounting has no guard of its own:
    5 bytes against a total of 0 are divided by zero, and the percentage is
    whatever [int] makes of the infinity. *)
Remark advance_without_total :
  Float64.div (Float64.of_int 5) (Float64.of_int 0) = S754_infinity false ∧
  Progress (advance zeroProgress 5) = Int64.min.
Proof. split; by vm_compute. Qed.

(** ** The specification, on every state *)

Section Specification.

Variable dir : string.
Variable Join : string → string → string.

(** C10: a request to the progress, download or cancel handler whose
    sessionID parameter is empty is answered with "sessionID is required"
    (400), whether [mu] is held or not, and leaves the whole state, and so
    each of the four maps, as it was. *)
Theorem C10_empty_sessionID_rejected (t : Torrent) (st : State) :
  progressHandler "" st
  = Some (http_Error "sessionID is required" StatusBadRequest, st) ∧
  downloadHandler "" t st
  = Some (http_Error "sessionID is required" StatusBadRequest, st) ∧
  cancelHandler "" st
  = Some (Some (http_Error "sessionID is required" StatusBadRequest), st).
Proof.
  unfold progressHandler, downloadHandler, cancelHandler.
  repeat split; by case_decide.
Qed.

(** C8: starting a session under a sessionID that already has an entry in
    [progressMap] gives the ID a new, zeroed struct, a new channel and no
    file path: [GetProgress] right after the restart reports
    DownloadedBytes = 0 (with a total and a percentage of 0).  The struct
    is newly allocated: no worker started before holds it. *)
Theorem C8_restart_discards_progress (sessionID : string) (t : Torrent)
    (st : State) (old : nat) :
  progressMap st !! sessionID = Some old → sessionID ≠ "" → mu st = Unlocked →
  ∃ st', downloadHandler sessionID t st
         = Some ({| status := StatusOK; body := NoBody |}, st') ∧
         GetProgress sessionID st' = Some zeroProgress ∧
         progressMap st' !! sessionID = Some (length (heap st)) ∧
         downloadMap st' !! sessionID = Some (chans st) ∧
         fileMap st' !! sessionID = None ∧
         (reachable dir Join st →
          ∀ i w, workers st !! i = Some w → w_progress w ≠ length (heap st)).
Proof.
  intros Hold Hsid Hmu.
  unfold downloadHandler, is_unlocked. rewrite Hold, Hmu.
  case_decide; [done|]. eexists. split; [reflexivity|].
  assert (Hnew : (heap st ++ [zeroProgress]) !! length (heap st)
                 = Some zeroProgress).
  { by rewrite lookup_app_r, Nat.sub_diag. }
  unfold GetProgress, progressHandler, is_unlocked, deref. simpl.
  case_decide; [done|]. rewrite Hmu. simpl.
  rewrite !lookup_insert_eq. simpl. rewrite Hnew.
  repeat split; try done.
  - apply lookup_delete_eq.
  - intros HI%reachable_Inv i w Hi.
    destruct (inv_workers _ _ HI i w Hi) as (p & Hp%lookup_lt_Some & _). lia.
Qed.



(** C5 (as the code has it): a cancel request for a session whose worker
    stands at the select statement of its last file is accepted (200) once
    the worker has received the signal; when the worker has then run on
    through its cleanup, a second cancel request for the same sessionID is
    answered NotFound and changes nothing: no map entry is touched, nothing
    is sent and no file is removed. *)
Theorem C5_second_cancel_after_cleanup (sessionID : string) (i : nat)
    (w : Worker) (filePath : string) (rs : list ReadResult) (st : State) :
  sessionID ≠ "" → mu st = Unlocked →
  workers st !! i = Some w → w_sessionID w = sessionID →
  w_pc w = AtSelect filePath rs [] →
  downloadMap st !! sessionID = Some (w_cancelChan w) →
  ∃ st', run dir Join
           [POST_cancel sessionID; Run i; Resume_cancel; Run i; Run i; Run i] st
         = Some ([None; None; Some {| status := StatusOK; body := NoBody |};
                  None; None; None], st') ∧
         step dir Join (POST_cancel sessionID) st'
         = Some (Some (http_Error "no download in progress for this session"
                         StatusNotFound), st').
Proof.
  intros Hsid Hmu Hi Hw Hpc Hc.
  pose proof (lookup_lt_Some _ _ _ Hi) as Hlt.
  set (st1 := set_mu (CancelSending sessionID (w_cancelChan w)) st).
  assert (H1 : step dir Join (POST_cancel sessionID) st = Some (None, st1)).
  { simpl. unfold cancelHandler, is_unlocked. rewrite Hmu, Hc. by case_decide. }
  set (st2 := set_pc i w (AtRemove filePath []) (set_mu (CancelSent sessionID) st1)).
  assert (H2 : step dir Join (Run i) st1 = Some (None, st2)).
  { simpl. rewrite Hi. simpl. unfold worker_step. simpl. rewrite Hpc.
    by case_decide. }
  destruct (cancelHandler_sent st2) as [[r3 st3]|] eqn:H3.
  2:{ unfold cancelHandler_sent in H3. simpl in H3. done. }
  assert (F3 : r3 = {| status := StatusOK; body := NoBody |} ∧
               mu st3 = Unlocked ∧ workers st3 = workers st2 ∧
               downloadMap st3 = downloadMap st).
  { unfold cancelHandler_sent in H3. simpl in H3.
    destruct (fileMap st !! sessionID); simplify_eq/=.
    - rewrite workers_os_Remove.
      by destruct (os_Remove_frame s st2) as (_ & _ & -> & _).
    - done. }
  destruct F3 as (-> & Hmu3 & Hws3 & Hd3).
  set (w4 := with_pc w (AtRemove filePath [])).
  assert (Hi3 : workers st3 !! i = Some w4).
  { rewrite Hws3. simpl. by apply list_lookup_insert_eq. }
  set (st4 := set_pc i w4 (AtFiles []) (os_Remove filePath st3)).
  assert (H4 : step dir Join (Run i) st3 = Some (None, st4)).
  { simpl. by rewrite Hi3. }
  assert (F4 : mu st4 = Unlocked ∧ downloadMap st4 = downloadMap st ∧
               workers st4 !! i = Some (with_pc w4 (AtFiles []))).
  { unfold st4. simpl. rewrite workers_os_Remove.
    destruct (os_Remove_frame filePath st3) as (-> & _ & -> & _).
    repeat split; try done.
    apply list_lookup_insert_eq. by eapply lookup_lt_Some. }
  destruct F4 as (Hmu4 & Hd4 & Hi4). clearbody st4.
  destruct (worker_step dir Join i (with_pc w4 (AtFiles [])) st4) as [st5|] eqn:H5.
  2:{ unfold worker_step, is_unlocked in H5. simpl in H5. by rewrite Hmu4 in H5. }
  assert (F5 : mu st5 = Unlocked ∧ downloadMap st5 = downloadMap st ∧
               workers st5 !! i = Some (with_pc (with_pc w4 (AtFiles [])) AtCleanup)).
  { unfold worker_step, is_unlocked in H5. simpl in H5. rewrite Hmu4 in H5.
    simplify_eq/=. repeat split; try done.
    apply list_lookup_insert_eq. by eapply lookup_lt_Some. }
  destruct F5 as (Hmu5 & Hd5 & Hi5).
  destruct (worker_step dir Join i
              (with_pc (with_pc w4 (AtFiles [])) AtCleanup) st5) as [st6|] eqn:H6.
  2:{ unfold worker_step, is_unlocked in H6. simpl in H6. by rewrite Hmu5 in H6. }
  assert (F6 : mu st6 = Unlocked ∧ downloadMap st6 !! sessionID = None).
  { unfold worker_step, is_unlocked in H6. simpl in H6. rewrite Hmu5 in H6.
    simplify_eq/=. split; [done|]. apply lookup_delete_eq. }
  destruct F6 as (Hmu6 & Hd6).
  clearbody st1 st2.
  exists st6. split.
  - eapply run_cons; [exact H1|]. eapply run_cons; [exact H2|].
    eapply run_cons; [unfold step; by rewrite H3|].
    eapply run_cons; [exact H4|].
    eapply run_cons; [unfold step; rewrite Hi4; simpl; by rewrite H5|].
    eapply run_cons; [unfold step; rewrite Hi5; simpl; by rewrite H6|].
    done.
  - simpl. unfold cancelHandler, is_unlocked. rewrite Hmu6, Hd6. by case_decide.
Qed.

Lemma GetProgress_cell (st : State) (sessionID : string) (p : ProgressResponse) :
  reachable dir Join st → GetProgress sessionID st = Some p → cell_ok p.
Proof.
  intros HI%reachable_Inv HG.
  unfold GetProgress, progressHandler in HG.
  repeat (case_match; simplify_eq/=).
  unfold deref.
  match goal with
  | |- cell_ok (default _ ?o) => destruct o as [q|] eqn:Hq; simpl
  end.
  - by eapply inv_cells.
  - apply cell_ok_zero.
Qed.

(** C4: when every torrent keeps the client's contract, a poller is never
    told a percentage other than 0 together with a total of 0, and a worker
    whose next read returns n > 0 (the only case in which [downloadFile]
    evaluates the division) finds a total above 0 in its struct. *)
Theorem C4_percentage_without_total (st : State) :
  reachable dir Join st →
  (∀ sessionID p, GetProgress sessionID st = Some p →
     TotalSizeBytes p = 0 → Progress p = 0) ∧
  (∀ i w filePath rs rest,
     workers st !! i = Some w → w_pc w = AtSelect filePath rs rest →
     0 < rd_n (hd at_eof rs) →
     0 < TotalSizeBytes (deref st (w_progress w))).
Proof.
  intros Hst. split.
  - intros sid p HG. by destruct (GetProgress_cell _ _ _ Hst HG).
  - intros i w filePath rs rest Hi Hpc Hn.
    destruct (inv_workers _ _ (reachable_Inv _ _ _ Hst) i w Hi) as (p & Hp & Hok).
    rewrite (deref_lookup _ _ _ Hp).
    unfold worker_ok in Hok. rewrite Hpc in Hok.
    destruct Hok as (Hrs & Hrest & HD & Hle & _).
    destruct rs as [|r rs]; simpl in Hn; [lia|].
    apply Forall_cons in Hrs as [_ Hrs].
    pose proof (sum_reads_nonneg _ Hrs).
    pose proof (sum_lengths_nonneg _ Hrest).
    simpl in Hle. fold (sum_reads rs) in Hle. lia.
Qed.

(** C6: when every torrent keeps the client's contract, whatever a poller
    is told at any moment has DownloadedBytes <= TotalSizeBytes as soon as
    TotalSizeBytes is above 0. *)
Theorem C6_downloaded_within_total (st : State) (sessionID : string)
    (p : ProgressResponse) :
  reachable dir Join st → GetProgress sessionID st = Some p →
  0 < TotalSizeBytes p → DownloadedBytes p ≤ TotalSizeBytes p.
Proof.
  intros Hst HG. by destruct (GetProgress_cell _ _ _ Hst HG) as [H _].
Qed.

End Specification.

(** ** The specification, on the sample runs *)

(** C1 (the code at the failing input): a single file of 3 bytes is read
    to its end and nobody cancels.  However many further steps the worker
    takes, it stands at the select statement of that file, at the end of
    the stream; the poller is told 100 percent, and [completedFiles] has no
    entry. *)
Theorem C1_read_loop_does_not_end_at_EOF (n : nat) :
  ∃ rs st w,
    run "." join (read_to_end ++ replicate n (Run 0)) init = Some (rs, st) ∧
    GetProgress "s" st
    = Some {| Progress := 100; DownloadedBytes := 3; TotalSizeBytes := 3 |} ∧
    workers st !! 0%nat = Some w ∧
    w_pc w = AtSelect "./a.mkv" [] [] ∧
    completedFiles st = ∅.
Proof.
  destruct (run "." join read_to_end init) as [[rs0 st0]|] eqn:H0;
    [|by vm_compute in H0].
  assert (∃ w, workers st0 !! 0%nat = Some w ∧
               w_pc w = AtSelect "./a.mkv" [] [] ∧
               mu st0 = Unlocked ∧
               completedFiles st0 = ∅ ∧
               GetProgress "s" st0
               = Some {| Progress := 100; DownloadedBytes := 3;
                         TotalSizeBytes := 3 |})
    as (w & Hw & Hpc & Hmu & Hcompleted & Hprogress).
  { vm_compute in H0. injection H0 as <- <-.
    eexists. repeat split; reflexivity. }
  exists (rs0 ++ replicate n None), st0, w.
  rewrite run_app, H0. simpl.
  rewrite (eof_spins_run "." join 0 w "./a.mkv" [] st0 n Hw Hpc).
  - done.
  - intros sid. by rewrite Hmu.
Qed.

(** C3 (the code at the failing input): a session with one file is
    cancelled after its first chunk.  The cancel request is accepted and
    the file is removed; [downloadFile] returns nil as it does at the end of
    a download, so the worker comes through its list of files, gives the
    session an entry in [completedFiles] (with the empty path, the handler
    having deleted the one in [fileMap]) and logs a successful download. *)
Theorem C3_cancelled_session_marked_completed :
  ∃ rs st,
    run "." join cancel_one_file init = Some (rs, st) ∧
    rs !! 6%nat = Some (Some {| status := StatusOK; body := NoBody |}) ∧
    storage st = ∅ ∧
    completedFiles st !! "s" = Some "" ∧
    last (log st) = Some "Torrent downloaded successfully".
Proof.
  destruct (run "." join cancel_one_file init) as [[rs st]|] eqn:H;
    [|by vm_compute in H].
  exists rs, st. split; [done|].
  vm_compute in H. injection H as <- <-.
  repeat split; reflexivity.
Qed.


(** C5 (counterexample): with two files, the second of two cancel requests
    is accepted like the first, the worker having gone on to the second
    file, which is removed in its turn; with one file, the second request,
    coming before the worker's cleanup, sends on a channel nobody receives
    from any more: it gets no answer and nothing moves again. *)
Lemma C5_second_cancel_accepted_or_blocked :
  (∃ rs st,
     run "." join cancel_twice init = Some (rs, st) ∧
     rs !! 6%nat = Some (Some {| status := StatusOK; body := NoBody |}) ∧
     rs !! 11%nat = Some (Some {| status := StatusOK; body := NoBody |}) ∧
     log st !! 2%nat = Some "Attempting to create file: ./b.mkv" ∧
     storage st = ∅) ∧
  (∃ rs st w,
     run "." join cancel_again_early init = Some (rs, st) ∧
     rs !! 6%nat = Some (Some {| status := StatusOK; body := NoBody |}) ∧
     rs !! 7%nat = Some None ∧
     mu st = CancelSending "s" 0 ∧
     workers st = [w] ∧ w_pc w = AtFiles [] ∧
     ∀ acts rs' st', run "." join acts st = Some (rs', st') → st' = st).
Proof.
  split.
  - destruct (run "." join cancel_twice init) as [[rs st]|] eqn:H;
      [|by vm_compute in H].
    exists rs, st. split; [done|].
    vm_compute in H. injection H as <- <-.
    repeat split; reflexivity.
  - destruct (run "." join cancel_again_early init) as [[rs st]|] eqn:H;
      [|by vm_compute in H].
    assert (∃ w, rs !! 6%nat = Some (Some {| status := StatusOK; body := NoBody |}) ∧
                 rs !! 7%nat = Some None ∧ mu st = CancelSending "s" 0 ∧
                 workers st = [w] ∧ w_pc w = AtFiles [])
      as (w & H6 & H7 & Hmu & Hws & Hpc).
    { vm_compute in H. injection H as <- <-. eexists. repeat split; reflexivity. }
    exists rs, st, w. repeat split; try done.
    intros acts rs' st'. apply halted_run.
    apply (sending_halted "." join st "s" 0%nat Hmu).
    intros i w'. rewrite Hws. destruct i as [|i]; simpl; [|done].
    intros [= <-]. unfold worker_step, is_unlocked. by rewrite Hpc, Hmu.
Qed.

(** C7 (counterexample): after 29 of 100 bytes the poller is told 28
    percent, where the floor of 29 / 100 * 100 is 29. *)
Lemma C7_percentage_below_floor :
  ∃ rs st p,
    run "." join twenty_nine init = Some (rs, st) ∧
    GetProgress "s" st = Some p ∧
    TotalSizeBytes p = 100 ∧ DownloadedBytes p = 29 ∧ Progress p = 28 ∧
    Progress p ≠ DownloadedBytes p * 100 / TotalSizeBytes p.
Proof.
  destruct (run "." join twenty_nine init) as [[rs st]|] eqn:H;
    [|by vm_compute in H].
  exists rs, st, {| Progress := 28; DownloadedBytes := 29; TotalSizeBytes := 100 |}.
  split; [done|].
  vm_compute in H. injection H as <- <-.
  repeat split; try reflexivity. by vm_compute.
Qed.

(** C7 (as the code has it): with a total above 0, an advance of n > 0
    bytes that keeps the counter within int64 adds exactly n to
    DownloadedBytes, leaves TotalSizeBytes, and sets Progress to the integer
    part of the double-precision value of
    float64(DownloadedBytes) / float64(TotalSizeBytes) * 100 (which can fall
    below the floor of the exact quotient); this is what a read of n bytes
    does to the worker's struct; and after 1500 of 3000 bytes the poller is
    told a total of 3000, 1500 downloaded and 50 percent. *)
Theorem C7_advance_adds_and_rounds (p : ProgressResponse) (n : Z) :
  0 < TotalSizeBytes p → 0 < n → 0 ≤ DownloadedBytes p →
  DownloadedBytes p + n ≤ Int64.max →
  DownloadedBytes (advance p n) = DownloadedBytes p + n ∧
  TotalSizeBytes (advance p n) = TotalSizeBytes p ∧
  Progress (advance p n)
  = Float64.to_int
      (Float64.mul
         (Float64.div (Float64.of_int (DownloadedBytes p + n))
                      (Float64.of_int (TotalSizeBytes p)))
         (Float64.of_int 100)) ∧
  (∀ i w filePath r rs rest st,
     heap st !! w_progress w = Some p → rd_n r = n →
     heap (read_chunk i w filePath (r :: rs) rest st) !! w_progress w
     = Some (advance p n)) ∧
  (∃ rs st,
     run "." join half_way init = Some (rs, st) ∧
     GetProgress "s" st
     = Some {| Progress := 50; DownloadedBytes := 1500; TotalSizeBytes := 3000 |}).
Proof.
  intros HT Hn HD Hmax.
  assert (Hadd : Int64.add (DownloadedBytes p) n = DownloadedBytes p + n).
  { apply wrap_in_range. unfold Int64.min. lia. }
  split; [exact Hadd|]. split; [reflexivity|]. split; [|split].
  - unfold advance, percentage. cbn [Progress]. by rewrite Hadd.
  - intros i w filePath r rs rest st Hp <-.
    by apply read_chunk_heap.
  - destruct (run "." join half_way init) as [[rs st]|] eqn:H;
      [|by vm_compute in H].
    exists rs, st. split; [done|].
    vm_compute in H. by injection H as <- <-.
Qed.

(** ** Instances *)

Lemma half_way_wf : Forall wf_action half_way.
Proof.
  unfold half_way. repeat apply Forall_cons_2; try apply Forall_nil_2;
    try exact I.
  simpl. split; [|by vm_compute].
  repeat apply Forall_cons_2; try apply Forall_nil_2.
  split; [|by vm_compute].
  repeat apply Forall_cons_2; try apply Forall_nil_2; by vm_compute.
Qed.

Lemma half_way_state :
  ∃ rs st w,
    run "." join half_way init = Some (rs, st) ∧
    reachable "." join st ∧
    mu st = Unlocked ∧
    workers st !! 0%nat = Some w ∧
    w_sessionID w = "s" ∧ w_cancelChan w = 0%nat ∧ w_progress w = 0%nat ∧
    w_pc w = AtSelect "./a.mkv" [chunk 1024; chunk 476] [] ∧
    progressMap st !! "s" = Some 0%nat ∧
    downloadMap st !! "s" = Some 0%nat ∧
    heap st = [{| Progress := 50; DownloadedBytes := 1500; TotalSizeBytes := 3000 |}].
Proof.
  destruct (run "." join half_way init) as [[rs st]|] eqn:H;
    [|by vm_compute in H].
  pose proof (run_reachable "." join _ _ _ _
                (reachable_init "." join) half_way_wf H) as Hreach.
  vm_compute in H. injection H as <- <-.
  eexists _, _, _. split; [reflexivity|]. split; [exact Hreach|].
  repeat split; reflexivity.
Qed.


(** The instance of C4: half way through the file of the sample run, the
    next read returns 1024 bytes and the total is above 0. *)
Lemma C4_witness :
  ∃ rs st w,
    run "." join half_way init = Some (rs, st) ∧
    reachable "." join st ∧
    workers st !! 0%nat = Some w ∧
    0 < TotalSizeBytes (deref st (w_progress w)).
Proof.
  destruct half_way_state
    as (rs & st & w & Hrun & Hreach & _ & Hw & _ & _ & _ & Hpc & _).
  exists rs, st, w. repeat split; try done.
  apply (proj2 (C4_percentage_without_total "." join st Hreach)
           0%nat w _ _ _ Hw Hpc).
  simpl. lia.
Defined.

(** The instance of C5: the session of the sample run is cancelled at its
    only file; after the worker's cleanup a second request finds nothing. *)
Lemma C5_witness :
  ∃ rs st st',
    run "." join half_way init = Some (rs, st) ∧
    "s" ≠ "" ∧ mu st = Unlocked ∧
    run "." join [POST_cancel "s"; Run 0; Resume_cancel; Run 0; Run 0; Run 0] st
    = Some ([None; None; Some {| status := StatusOK; body := NoBody |};
             None; None; None], st') ∧
    step "." join (POST_cancel "s") st'
    = Some (Some (http_Error "no download in progress for this session"
                    StatusNotFound), st').
Proof.
  destruct half_way_state
    as (rs & st & w & Hrun & _ & Hmu & Hw & Hsid & Hch & _ & Hpc & _ & Hd & _).
  assert (Hne : "s" ≠ "") by discriminate.
  rewrite <- Hch in Hd.
  destruct (C5_second_cancel_after_cleanup "." join "s" 0%nat w _ _ st
              Hne Hmu Hw Hsid Hpc Hd) as (st' & H1 & H2).
  exists rs, st, st'. repeat split; done.
Defined.

(** The instance of C6: half way through the file of the sample run. *)
Lemma C6_witness :
  ∃ rs st p,
    run "." join half_way init = Some (rs, st) ∧
    reachable "." join st ∧
    GetProgress "s" st = Some p ∧
    0 < TotalSizeBytes p ∧
    DownloadedBytes p ≤ TotalSizeBytes p.
Proof.
  destruct half_way_state
    as (rs & st & w & Hrun & Hreach & Hmu & _ & _ & _ & _ & _ & Hp & _ & Hh).
  assert (HG : GetProgress "s" st
               = Some {| Progress := 50; DownloadedBytes := 1500;
                         TotalSizeBytes := 3000 |}).
  { unfold GetProgress, progressHandler, is_unlocked, deref.
    rewrite Hmu, Hp, Hh. reflexivity. }
  assert (HT : 0 < 3000) by lia.
  eexists rs, st, _.
  split; [exact Hrun|]. split; [exact Hreach|]. split; [exact HG|].
  split; [exact HT|].
  exact (C6_downloaded_within_total "." join st "s" _ Hreach HG HT).
Defined.

(** The instance of C7: 500 bytes more after 1000 of 3000. *)
Lemma C7_witness :
  let p := {| Progress := 33; DownloadedBytes := 1000; TotalSizeBytes := 3000 |} in
  0 < TotalSizeBytes p ∧ 0 < 500 ∧ 0 ≤ DownloadedBytes p ∧
  DownloadedBytes p + 500 ≤ Int64.max ∧
  DownloadedBytes (advance p 500) = 1500 ∧ Progress (advance p 500) = 50.
Proof.
  intros p.
  assert (H1 : 0 < TotalSizeBytes p) by (simpl; lia).
  assert (H2 : 0 < 500) by lia.
  assert (H3 : 0 ≤ DownloadedBytes p) by (simpl; lia).
  assert (H4 : DownloadedBytes p + 500 ≤ Int64.max) by (by vm_compute).
  destruct (C7_advance_adds_and_rounds p 500 H1 H2 H3 H4) as (HD & _ & HP & _).
  split; [exact H1|]. split; [exact H2|]. split; [exact H3|]. split; [exact H4|].
  split; [by rewrite HD|]. rewrite HP. by vm_compute.
Defined.

(** The instance of C8: the session of the sample run is started again. *)
Lemma C8_witness :
  ∃ rs st st',
    run "." join half_way init = Some (rs, st) ∧
    progressMap st !! "s" = Some 0%nat ∧ "s" ≠ "" ∧ mu st = Unlocked ∧
    GetProgress "s" st
    = Some {| Progress := 50; DownloadedBytes := 1500; TotalSizeBytes := 3000 |} ∧
    downloadHandler "s" InfoPending st
    = Some ({| status := StatusOK; body := NoBody |}, st') ∧
    GetProgress "s" st' = Some zeroProgress.
Proof.
  destruct half_way_state
    as (rs & st & w & Hrun & _ & Hmu & _ & _ & _ & _ & _ & Hp & _ & Hh).
  assert (Hne : "s" ≠ "") by discriminate.
  destruct (C8_restart_discards_progress "." join "s" InfoPending st 0%nat
              Hp Hne Hmu)
    as (st' & H1 & H2 & _).
  assert (HG : GetProgress "s" st
               = Some {| Progress := 50; DownloadedBytes := 1500;
                         TotalSizeBytes := 3000 |}).
  { unfold GetProgress, progressHandler, is_unlocked, deref.
    rewrite Hmu, Hp, Hh. reflexivity. }
  exists rs, st, st'. repeat split; done.
Defined.


(** * Further properties of the server *)

Section Registry.

Variable dir : string.
Variable Join : string → string → string.

Lemma read_chunk_effect (i : nat) (w : Worker) (filePath : string)
    (rs : list ReadResult) (rest : list File) (st : State) :
  let st' := read_chunk i w filePath rs rest st in
  (∃ pc, workers st' = <[i := with_pc w pc]> (workers st)) ∧
  chans st' = chans st ∧
  length (heap st') = length (heap st) ∧
  (∀ l, l ≠ w_progress w → heap st' !! l = heap st !! l) ∧
  storage st' = storage st.
Proof.
  unfold read_chunk.
  repeat (case_match; simpl); rewrite ?length_insert;
    (split; [by eexists|]); repeat split; try done;
    intros l Hl; by rewrite list_lookup_insert_ne.
Qed.

Lemma worker_step_effect (i : nat) (w : Worker) (st st' : State) :
  workers st !! i = Some w → worker_step dir Join i w st = Some st' →
  (∃ pc, workers st' = <[i := with_pc w pc]> (workers st)) ∧
  chans st' = chans st ∧
  length (heap st') = length (heap st) ∧
  (∀ l, l ≠ w_progress w → heap st' !! l = heap st !! l) ∧
  (∀ s, s ≠ w_sessionID w →
     progressMap st' !! s = progressMap st !! s ∧
     downloadMap st' !! s = downloadMap st !! s ∧
     fileMap st' !! s = fileMap st !! s ∧
     completedFiles st' !! s = completedFiles st !! s) ∧
  (∀ s v, progressMap st' !! s = Some v → progressMap st !! s = Some v) ∧
  (∀ s v, downloadMap st' !! s = Some v → downloadMap st !! s = Some v) ∧
  (mu st' = mu st ∨
   ∃ s, mu st = CancelSending s (w_cancelChan w) ∧ mu st' = CancelSent s).
Proof.
  intros Hi Hstep. unfold worker_step in Hstep.
  destruct (w_pc w) as [|[|f rest]|filePath rs rest|filePath rest| |] eqn:Hpc.
  - (* AtStart *)
    repeat (case_match; simplify_eq/=); rewrite ?length_insert;
      (split; [by eexists|]); repeat split; try done; try (by left);
      intros l Hl; by rewrite list_lookup_insert_ne.
  - (* the marking *)
    case_match; simplify_eq/=.
    split; [by eexists|]. repeat split; try done; try (by left).
    by rewrite lookup_insert_ne.
  - (* the opening of a file *)
    repeat (case_match; simplify_eq/=);
      (split; [by eexists|]); repeat split; try done; try (by left);
      by rewrite lookup_insert_ne.
  - (* the select statement *)
    assert (Hread : ∀ st1, st1 = read_chunk i w filePath rs rest st →
              (∃ pc, workers st1 = <[i := with_pc w pc]> (workers st)) ∧
              chans st1 = chans st ∧
              length (heap st1) = length (heap st) ∧
              (∀ l, l ≠ w_progress w → heap st1 !! l = heap st !! l) ∧
              (∀ s, s ≠ w_sessionID w →
                 progressMap st1 !! s = progressMap st !! s ∧
                 downloadMap st1 !! s = downloadMap st !! s ∧
                 fileMap st1 !! s = fileMap st !! s ∧
                 completedFiles st1 !! s = completedFiles st !! s) ∧
              (∀ s v, progressMap st1 !! s = Some v → progressMap st !! s = Some v) ∧
              (∀ s v, downloadMap st1 !! s = Some v → downloadMap st !! s = Some v) ∧
              (mu st1 = mu st ∨
               ∃ s, mu st = CancelSending s (w_cancelChan w) ∧ mu st1 = CancelSent s)).
    { intros st1 ->.
      destruct (read_chunk_effect i w filePath rs rest st) as (Hw & Hc & Hl & Hh & _).
      destruct (read_chunk_frame i w filePath rs rest st) as (Hm & Hp & Hd & Hf & Hcf).
      rewrite Hp, Hd, Hf, Hcf, Hm. repeat split; try done. by left. }
    destruct (mu st) as [|sid c|sid] eqn:Hmu;
      [|destruct (decide (c = w_cancelChan w)) as [->|Hne]|];
      simplify_eq/=; try (by apply Hread).
    split; [by eexists|]. repeat split; try done. right. by exists sid.
  - (* the removal *)
    simplify_eq/=. rewrite heap_os_Remove, workers_os_Remove.
    destruct (os_Remove_frame filePath st) as (-> & -> & -> & -> & ->).
    split; [by eexists|]. repeat split; try done; try (by left).
    unfold os_Remove. by case_decide.
  - (* the cleanup *)
    case_match; simplify_eq/=.
    split; [by eexists|]. repeat split; try done; try (by left);
      try (by rewrite lookup_delete_ne);
      by intros s v [_ ?]%lookup_delete_Some.
  - done.
Qed.

Lemma lookup_moved (ws : list Worker) (i j : nat) (w wj : Worker) (pc : wpc) :
  ws !! i = Some w → <[i := with_pc w pc]> ws !! j = Some wj →
  ∃ w0, ws !! j = Some w0 ∧ w_sessionID wj = w_sessionID w0 ∧
        w_cancelChan wj = w_cancelChan w0 ∧ w_progress wj = w_progress w0.
Proof.
  intros Hi [(<- & <- & _)|[_ Hj]]%list_lookup_insert_Some; eauto.
Qed.

Lemma Reg_init : Reg init.
Proof. split; simpl; intros *; rewrite ?lookup_nil, ?lookup_empty; done. Qed.

Lemma Reg_worker_step (i : nat) (w : Worker) (st st' : State) :
  Reg st → workers st !! i = Some w →
  worker_step dir Join i w st = Some st' → Reg st'.
Proof.
  intros [R1 R2 R3 R4 R5 R6] Hi Hstep.
  destruct (worker_step_effect i w st st' Hi Hstep)
    as ([pc Hws] & Hch & Hlen & _ & _ & Hpm & Hdm & Hmu).
  assert (Hold : ∀ j wj, workers st' !! j = Some wj →
            ∃ w0, workers st !! j = Some w0 ∧
                  w_sessionID wj = w_sessionID w0 ∧
                  w_cancelChan wj = w_cancelChan w0 ∧
                  w_progress wj = w_progress w0).
  { rewrite Hws. intros j wj. by apply lookup_moved. }
  split; rewrite ?Hch, ?Hlen.
  - intros j wj (w0 & Hj & _ & -> & _)%Hold. eauto.
  - intros j wj (w0 & Hj & _ & _ & ->)%Hold. eauto.
  - intros j k wj wk (wj0 & Hj & _ & -> & _)%Hold
      (wk0 & Hk & _ & -> & _)%Hold. eauto.
  - intros sid c Hc%Hdm. destruct (R4 sid c Hc) as [Hlt Hown].
    split; [done|].
    intros j wj (w0 & Hj & -> & -> & _)%Hold. eauto.
  - intros sid c Hsend.
    destruct Hmu as [Hmu|(s & _ & Hmu)]; [|congruence].
    rewrite Hmu in Hsend. destruct (R5 sid c Hsend) as [Hlt Hown].
    split; [done|].
    intros j wj (w0 & Hj & -> & -> & _)%Hold. eauto.
  - intros sid l Hl%Hpm. destruct (R6 sid l Hl) as [Hlt Hown].
    split; [done|].
    intros j wj (w0 & Hj & -> & _ & ->)%Hold. eauto.
Qed.

Lemma Reg_download (sid : string) (t : Torrent) (r : Response) (st st' : State) :
  Reg st → downloadHandler sid t st = Some (r, st') → Reg st'.
Proof.
  intros [R1 R2 R3 R4 R5 R6] Hh. unfold downloadHandler in Hh.
  case_decide; [by simplify_eq|].
  destruct (is_unlocked st) eqn:Hmu; [|done].
  assert (Hun : mu st = Unlocked).
  { unfold is_unlocked in Hmu. by destruct (mu st). }
  assert (∃ pm dm, 
    (∀ s v, pm !! s = Some v → progressMap st !! s = Some v) ∧
    (∀ s v, dm !! s = Some v → downloadMap st !! s = Some v) ∧
    st' = spawn sid t (chans st) (length (heap st))
            (set_downloadMap (<[sid := chans st]> dm)
               (set_chans (S (chans st))
                  (set_progressMap (<[sid := length (heap st)]> pm)
                     (set_heap (heap st ++ [zeroProgress])
                        (set_fileMap (match progressMap st !! sid with
                                      | Some _ => delete sid (fileMap st)
                                      | None => fileMap st
                                      end) st))))))
    as (pm & dm & Hpm & Hdm & ->).
  { destruct (progressMap st !! sid) eqn:Hp; simplify_eq/=.
    - exists (delete sid (progressMap st)), (delete sid (downloadMap st)).
      split; [by intros s v [_ ?]%lookup_delete_Some|].
      split; [by intros s v [_ ?]%lookup_delete_Some|]. done.
    - exists (progressMap st), (downloadMap st). repeat split; done. }
  split; simpl.
  - intros j wj [Hj|[_ Hj]]%lookup_app_Some.
    + apply R1 in Hj. lia.
    + apply list_lookup_singleton_Some in Hj as [_ <-]. simpl. lia.
  - intros j wj [Hj|[_ Hj]]%lookup_app_Some; rewrite length_app; simpl.
    + apply R2 in Hj. lia.
    + apply list_lookup_singleton_Some in Hj as [_ <-]. simpl. lia.
  - intros j k wj wk [Hj|[Hjl Hj]]%lookup_app_Some [Hk|[Hkl Hk]]%lookup_app_Some Heq.
    + by eapply R3.
    + apply list_lookup_singleton_Some in Hk as [_ <-]. simpl in Heq.
      apply R1 in Hj. lia.
    + apply list_lookup_singleton_Some in Hj as [_ <-]. simpl in Heq.
      apply R1 in Hk. lia.
    + apply list_lookup_singleton_Some in Hj as [Hj _].
      apply list_lookup_singleton_Some in Hk as [Hk _]. lia.
  - intros s c [[<- <-]|[Hne Hc%Hdm]]%lookup_insert_Some.
    + split; [lia|].
      intros j wj [Hj|[_ Hj]]%lookup_app_Some Hc.
      * apply R1 in Hj. lia.
      * by apply list_lookup_singleton_Some in Hj as [_ <-].
    + destruct (R4 s c Hc) as [Hlt Hown]. split; [lia|].
      intros j wj [Hj|[_ Hj]]%lookup_app_Some Hcj; [by eapply Hown|].
      apply list_lookup_singleton_Some in Hj as [_ <-]. simpl in Hcj. lia.
  - intros s c Hs. congruence.
  - rewrite length_app. simpl.
    intros s l [[<- <-]|[Hne Hl%Hpm]]%lookup_insert_Some.
    + split; [lia|].
      intros j wj [Hj|[_ Hj]]%lookup_app_Some Hlj.
      * apply R2 in Hj. lia.
      * by apply list_lookup_singleton_Some in Hj as [_ <-].
    + destruct (R6 s l Hl) as [Hlt Hown]. split; [lia|].
      intros j wj [Hj|[_ Hj]]%lookup_app_Some Hlj; [by eapply Hown|].
      apply list_lookup_singleton_Some in Hj as [_ <-]. simpl in Hlj. lia.
Qed.

Lemma Reg_cancel (sid : string) (r : option Response) (st st' : State) :
  Reg st → cancelHandler sid st = Some (r, st') → Reg st'.
Proof.
  intros HR Hh. unfold cancelHandler in Hh.
  repeat (case_match; simplify_eq/=); try done.
  destruct HR as [R1 R2 R3 R4 R5 R6]. split; simpl; try done.
  intros s c [= <- <-]. eauto.
Qed.

Lemma Reg_cancel_sent (r : Response) (st st' : State) :
  Reg st → cancelHandler_sent st = Some (r, st') → Reg st'.
Proof.
  intros [R1 R2 R3 R4 R5 R6] Hh. unfold cancelHandler_sent in Hh.
  destruct (mu st) as [| |sid] eqn:Hmu; simplify_eq/=.
  assert (∃ st1, heap st1 = heap st ∧ workers st1 = workers st ∧
                 chans st1 = chans st ∧ progressMap st1 = progressMap st ∧
                 downloadMap st1 = downloadMap st ∧
                 match fileMap st !! sid with
                 | Some filePath =>
                     set_fileMap (delete sid (fileMap (os_Remove filePath st)))
                       (os_Remove filePath st)
                 | None => st
                 end = st1) as (st1 & Hh & Hw & Hc & Hp & Hd & ->).
  { exists (match fileMap st !! sid with
            | Some filePath =>
                set_fileMap (delete sid (fileMap (os_Remove filePath st)))
                  (os_Remove filePath st)
            | None => st
            end).
    repeat split; case_match; simpl;
      rewrite ?heap_os_Remove, ?workers_os_Remove; try done;
      unfold os_Remove; by case_decide. }
  split; simpl; rewrite ?Hh, ?Hw, ?Hc, ?Hp, ?Hd, ?length_app; simpl; try done.
  - intros i w Hi%R2. lia.
  - intros s l [[<- <-]|[Hne Hl]]%lookup_insert_Some.
    + split; [lia|]. intros i w Hi%R2 Hl. lia.
    + destruct (R6 s l Hl) as [Hlt Hown]. split; [lia|done].
Qed.

Lemma Reg_step (a : Action) (r : option Response) (st st' : State) :
  Reg st → step dir Join a st = Some (r, st') → Reg st'.
Proof.
  intros HR Hstep. destruct a as [i|sid|sid t|sid| |]; simpl in Hstep.
  - destruct (workers st !! i) as [w|] eqn:Hi; [|done].
    destruct (worker_step dir Join i w st) as [st1|] eqn:Hw; simplify_eq/=.
    by eapply Reg_worker_step.
  - unfold progressHandler in Hstep. by repeat (case_match; simplify_eq/=).
  - destruct (downloadHandler sid t st) as [[r1 st1]|] eqn:Hh; simplify_eq/=.
    by eapply Reg_download.
  - by eapply Reg_cancel.
  - destruct (cancelHandler_sent st) as [[r1 st1]|] eqn:Hh; simplify_eq/=.
    by eapply Reg_cancel_sent.
  - unfold completedHandler in Hstep. by repeat (case_match; simplify_eq/=).
Qed.

Lemma Reg_run (acts : list Action) (rs : list (option Response))
    (st st' : State) :
  Reg st → run dir Join acts st = Some (rs, st') → Reg st'.
Proof.
  revert rs st. induction acts as [|a acts IH]; intros rs st HR Hrun;
    simpl in Hrun; [by simplify_eq|].
  destruct (step dir Join a st) as [[r st1]|] eqn:Hs; simpl in Hrun; [|done].
  destruct (run dir Join acts st1) as [[rs1 st2]|] eqn:Hrest; simplify_eq/=.
  eapply IH; [|done]. by eapply Reg_step.
Qed.

Lemma reachable_Reg (st : State) : reachable dir Join st → Reg st.
Proof.
  induction 1 as [|a r st st' _ IH _ Hstep]; [apply Reg_init|].
  by eapply Reg_step.
Qed.

(** X1: the cancel signal of a request for a sessionID is received only by
    a worker of that session, and no other worker holds the channel it is
    sent on. *)
Theorem X1_cancel_reaches_own_worker (st st' : State) (r : option Response)
    (sessionID : string) (c i : nat) (w : Worker) :
  reachable dir Join st →
  mu st = CancelSending sessionID c → workers st !! i = Some w →
  step dir Join (Run i) st = Some (r, st') → mu st' = CancelSent sessionID →
  w_sessionID w = sessionID ∧ w_cancelChan w = c ∧
  ∀ j w', workers st !! j = Some w' → w_cancelChan w' = c → j = i.
Proof.
  intros HR%reachable_Reg Hmu Hi Hstep Hmu'. simpl in Hstep. rewrite Hi in Hstep.
  destruct (worker_step dir Join i w st) as [st1|] eqn:Hw; simplify_eq/=.
  destruct (worker_step_effect i w st st' Hi Hw)
    as (_ & _ & _ & _ & _ & _ & _ & [Hsame|(s & Hs & _)]); [congruence|].
  rewrite Hmu in Hs. injection Hs as <- ->.
  destruct (reg_sending _ HR _ _ Hmu) as [_ Hown].
  split; [by eapply Hown|]. split; [done|].
  intros j w' Hj Hc. by eapply (reg_chan_owner _ HR).
Qed.

(** X2: a step taken for one session leaves every other session as it is:
    its entries in [progressMap], [downloadMap], [fileMap] and
    [completedFiles], and the struct a poller of that session is shown. *)
Theorem X2_sessions_do_not_interfere (a : Action) (r : option Response)
    (st st' : State) (sessionID : string) :
  reachable dir Join st → step dir Join a st = Some (r, st') →
  actor a st ≠ Some sessionID →
  progressMap st' !! sessionID = progressMap st !! sessionID ∧
  downloadMap st' !! sessionID = downloadMap st !! sessionID ∧
  fileMap st' !! sessionID = fileMap st !! sessionID ∧
  completedFiles st' !! sessionID = completedFiles st !! sessionID ∧
  ∀ l, progressMap st !! sessionID = Some l → deref st' l = deref st l.
Proof.
  intros HR%reachable_Reg Hstep Hact.
  assert (Happ : ∀ l, progressMap st !! sessionID = Some l →
            default zeroProgress ((heap st ++ [zeroProgress]) !! l) = deref st l).
  { intros l [Hl _]%(reg_progress _ HR). unfold deref. by rewrite lookup_app_l. }
  destruct a as [i|sid|sid t|sid| |]; simpl in Hstep, Hact.
  - destruct (workers st !! i) as [w|] eqn:Hi; [|done].
    destruct (worker_step dir Join i w st) as [st1|] eqn:Hw; simplify_eq/=.
    destruct (worker_step_effect i w st st' Hi Hw)
      as (_ & _ & _ & Hheap & Hmaps & _).
    assert (sessionID ≠ w_sessionID w) as Hne by congruence.
    destruct (Hmaps _ Hne) as (-> & -> & -> & ->). repeat split; try done.
    intros l Hl. unfold deref. rewrite Hheap; [done|].
    intros ->. destruct (reg_progress _ HR _ _ Hl) as [_ Hown].
    apply Hne. symmetry. by eapply Hown.
  - unfold progressHandler in Hstep. by repeat (case_match; simplify_eq/=).
  - assert (sid ≠ sessionID) as Hne by congruence.
    unfold downloadHandler in Hstep.
    repeat (case_match; simplify_eq/=); try done;
      rewrite ?lookup_insert_ne, ?lookup_delete_ne by done;
      repeat split; try done; apply Happ.
  - unfold cancelHandler in Hstep. by repeat (case_match; simplify_eq/=).
  - unfold cancelHandler_sent in Hstep.
    destruct (mu st) as [| |sid] eqn:Hmu; simplify_eq/=.
    assert (sid ≠ sessionID) as Hne by congruence.
    destruct (fileMap st !! sid) as [filePath|] eqn:Hf; simpl;
      rewrite ?heap_os_Remove, ?lookup_insert_ne, ?lookup_delete_ne by done;
      try destruct (os_Remove_frame filePath st) as (_ & -> & -> & -> & ->);
      repeat split; try done; apply Happ.
  - unfold completedHandler in Hstep. by repeat (case_match; simplify_eq/=).
Qed.

(** X3: a file leaves the storage only by one of the two removals of a
    cancellation: that of the worker that took the cancel case for this
    file, or that of [cancelHandler] for the path in its session's
    [fileMap] entry.  No other step removes a file; a download that fails
    leaves what it has written. *)
Theorem X3_only_cancel_removes_files (a : Action) (r : option Response)
    (st st' : State) (filePath : string) :
  step dir Join a st = Some (r, st') →
  filePath ∈ storage st → filePath ∉ storage st' →
  (∃ i w rest, a = Run i ∧ workers st !! i = Some w ∧
               w_pc w = AtRemove filePath rest) ∨
  (∃ sessionID, a = Resume_cancel ∧ mu st = CancelSent sessionID ∧
                fileMap st !! sessionID = Some filePath).
Proof.
  intros Hstep Hin Hout. destruct a as [i|sid|sid t|sid| |]; simpl in Hstep.
  - destruct (workers st !! i) as [w|] eqn:Hi; [|done].
    destruct (worker_step dir Join i w st) as [st1|] eqn:Hw; simplify_eq/=.
    unfold worker_step in Hw.
    destruct (w_pc w) as [|[|f rest]|path rs rest|path rest| |] eqn:Hpc.
    + by repeat (case_match; simplify_eq/=).
    + by repeat (case_match; simplify_eq/=).
    + repeat (case_match; simplify_eq/=); try done. set_solver.
    + assert (storage st' = storage st ∨ storage st' = storage st) as [Hs|Hs];
        [|by rewrite Hs in Hout..].
      repeat (case_match; simplify_eq/=); try (by left);
        left; apply read_chunk_effect.
    + simplify_eq/=. left. exists i, w, rest.
      unfold os_Remove in Hout. case_decide; simpl in Hout; [|done].
      destruct (decide (filePath = path)) as [->|Hne]; [done|].
      exfalso. apply Hout. apply elem_of_difference. split; [done|].
      by intros ?%elem_of_singleton.
    + by repeat (case_match; simplify_eq/=).
    + done.
  - unfold progressHandler in Hstep. by repeat (case_match; simplify_eq/=).
  - unfold downloadHandler in Hstep. by repeat (case_match; simplify_eq/=).
  - unfold cancelHandler in Hstep. by repeat (case_match; simplify_eq/=).
  - right. unfold cancelHandler_sent in Hstep.
    destruct (mu st) as [| |sid] eqn:Hmu; simplify_eq/=.
    exists sid. repeat split.
    destruct (fileMap st !! sid) as [path|] eqn:Hf; simpl in Hout; [|done].
    unfold os_Remove in Hout. case_decide; simpl in Hout; [|done].
    destruct (decide (filePath = path)) as [->|Hne]; [done|].
    exfalso. apply Hout. apply elem_of_difference. split; [done|].
    by intros ?%elem_of_singleton.
  - unfold completedHandler in Hstep. by repeat (case_match; simplify_eq/=).
Qed.

Lemma is_unlocked_true (st : State) : is_unlocked st = true → mu st = Unlocked.
Proof. unfold is_unlocked. by destruct (mu st). Qed.

Lemma downloadHandler_effect (sid : string) (t : Torrent) (r : Response)
    (st st' : State) :
  downloadHandler sid t st = Some (r, st') →
  (sid = "" ∧ st' = st) ∨
  (sid ≠ "" ∧ mu st = Unlocked ∧ mu st' = Unlocked ∧
   chans st' = S (chans st) ∧
   heap st' = heap st ++ [zeroProgress] ∧
   workers st' = workers st ++
                 [{| w_sessionID := sid; w_torrent := t;
                     w_cancelChan := chans st;
                     w_progress := length (heap st); w_pc := AtStart |}] ∧
   progressMap st' !! sid = Some (length (heap st)) ∧
   downloadMap st' !! sid = Some (chans st) ∧
   (∀ s, s ≠ sid →
      progressMap st' !! s = progressMap st !! s ∧
      downloadMap st' !! s = downloadMap st !! s ∧
      fileMap st' !! s = fileMap st !! s) ∧
   completedFiles st' = completedFiles st ∧
   storage st' = storage st).
Proof.
  intros Hh. unfold downloadHandler in Hh.
  case_decide; [left; by simplify_eq|]. right.
  destruct (is_unlocked st) eqn:Hun; [|done].
  apply is_unlocked_true in Hun.
  destruct (progressMap st !! sid) eqn:Hp; simplify_eq/=;
    rewrite !lookup_insert_eq; repeat split; try done;
    intros; by rewrite ?lookup_insert_ne, ?lookup_delete_ne.
Qed.

Lemma step_worker_ids (a : Action) (r : option Response) (st st' : State)
    (i : nat) (w : Worker) :
  workers st !! i = Some w → step dir Join a st = Some (r, st') →
  ∃ w', workers st' !! i = Some w' ∧ w_sessionID w' = w_sessionID w ∧
        w_cancelChan w' = w_cancelChan w ∧ w_progress w' = w_progress w.
Proof.
  intros Hi Hstep. destruct a as [j|sid|sid t|sid| |]; simpl in Hstep.
  - destruct (workers st !! j) as [wj|] eqn:Hj; [|done].
    destruct (worker_step dir Join j wj st) as [st1|] eqn:Hw; simplify_eq/=.
    destruct (worker_step_effect j wj st st' Hj Hw) as ([pc ->] & _).
    destruct (decide (j = i)) as [->|Hne].
    + simplify_eq. exists (with_pc w pc). split; [|done].
      apply list_lookup_insert_eq. by eapply lookup_lt_Some.
    + exists w. by rewrite list_lookup_insert_ne.
  - unfold progressHandler in Hstep. repeat (case_match; simplify_eq/=); eauto.
  - destruct (downloadHandler sid t st) as [[r1 st1]|] eqn:Hh; simplify_eq/=.
    destruct (downloadHandler_effect _ _ _ _ _ Hh)
      as [[_ ->]|(_ & _ & _ & _ & _ & -> & _)]; [eauto|].
    exists w. split; [by apply lookup_app_l_Some|done].
  - unfold cancelHandler in Hstep. repeat (case_match; simplify_eq/=); eauto.
  - unfold cancelHandler_sent in Hstep.
    repeat (case_match; simplify_eq/=); rewrite ?workers_os_Remove; eauto.
  - unfold completedHandler in Hstep. repeat (case_match; simplify_eq/=); eauto.
Qed.

Lemma unregistered_step (c : nat) (a : Action) (r : option Response)
    (st st' : State) :
  unregistered c st → step dir Join a st = Some (r, st') → unregistered c st'.
Proof.
  intros (Hlt & Hdm & Hmu) Hstep.
  destruct a as [i|sid|sid t|sid| |]; simpl in Hstep.
  - destruct (workers st !! i) as [w|] eqn:Hi; [|done].
    destruct (worker_step dir Join i w st) as [st1|] eqn:Hw; simplify_eq/=.
    destruct (worker_step_effect i w st st' Hi Hw)
      as (_ & Hch & _ & _ & _ & _ & Hd & Hm).
    split; [by rewrite Hch|]. split.
    + intros s Hs%Hd. by eapply Hdm.
    + intros s Hs. destruct Hm as [Hm|(s' & _ & Hm)]; [|congruence].
      rewrite Hm in Hs. by eapply Hmu.
  - unfold progressHandler in Hstep. by repeat (case_match; simplify_eq/=).
  - destruct (downloadHandler sid t st) as [[r1 st1]|] eqn:Hh; simplify_eq/=.
    destruct (downloadHandler_effect _ _ _ _ _ Hh)
      as [[_ ->]|(Hsid & _ & Hm' & Hch & _ & _ & _ & Hd & Hother & _)];
      [done|].
    split; [lia|]. split; [|congruence].
    intros s Hs. destruct (decide (s = sid)) as [->|Hne].
    + rewrite Hd in Hs. injection Hs as <-. lia.
    + destruct (Hother s Hne) as (_ & Hds & _). rewrite Hds in Hs.
      by eapply Hdm.
  - unfold cancelHandler in Hstep.
    repeat (case_match; simplify_eq/=); try done.
    split; [done|]. split; [done|].
    intros s [= <- <-]. by eapply Hdm.
  - unfold cancelHandler_sent in Hstep.
    destruct (mu st) as [| |sid] eqn:Hm; simplify_eq/=.
    destruct (fileMap st !! sid) as [filePath|]; unfold unregistered; simpl.
    + destruct (os_Remove_frame filePath st) as (_ & _ & -> & _).
      split; [unfold os_Remove; by case_decide|]. by split.
    + by repeat split.
  - unfold completedHandler in Hstep. by repeat (case_match; simplify_eq/=).
Qed.

Lemma unregistered_run (c i : nat) (w : Worker) (acts : list Action)
    (rs : list (option Response)) (st st' : State) :
  unregistered c st → workers st !! i = Some w → w_cancelChan w = c →
  run dir Join acts st = Some (rs, st') →
  unregistered c st' ∧
  ∃ w', workers st' !! i = Some w' ∧ w_cancelChan w' = c ∧
        w_sessionID w' = w_sessionID w.
Proof.
  revert rs st w. induction acts as [|a acts IH]; intros rs st w Hun Hi Hc Hrun;
    simpl in Hrun.
  - simplify_eq. eauto.
  - destruct (step dir Join a st) as [[r st1]|] eqn:Hs; simpl in Hrun; [|done].
    destruct (run dir Join acts st1) as [[rs1 st2]|] eqn:Hrest; simplify_eq/=.
    destruct (step_worker_ids _ _ _ _ _ _ Hi Hs) as (w1 & Hi1 & Hsid & Hc1 & _).
    destruct (IH _ _ w1 (unregistered_step _ _ _ _ _ Hun Hs) Hi1 Hc1 Hrest)
      as (Hun' & w' & Hi' & Hc' & Hsid').
    split; [done|]. exists w'. repeat split; congruence.
Qed.

(** A worker whose channel is unregistered takes the default case at its
    select statement. *)
Lemma unregistered_reads (i : nat) (w : Worker) (filePath : string)
    (rs : list ReadResult) (rest : list File) (st : State) :
  unregistered (w_cancelChan w) st → w_pc w = AtSelect filePath rs rest →
  worker_step dir Join i w st = Some (read_chunk i w filePath rs rest st).
Proof.
  intros (_ & _ & Hmu) Hpc. unfold worker_step. rewrite Hpc.
  destruct (mu st) as [|s c|s] eqn:Hm; try done.
  case_decide; [|done]. subst c. by destruct (Hmu s).
Qed.

(** X4: after a session is started again under its sessionID, the worker
    of the earlier start can no longer be cancelled: whatever happens
    next, its channel is in no [downloadMap] entry, no cancel request sends
    on it, and the worker takes the default case at every select
    statement. *)
Theorem X4_superseded_worker_cannot_be_cancelled (sessionID : string)
    (t : Torrent) (r : Response) (st st1 st' : State) (i : nat) (w : Worker)
    (acts : list Action) (rs : list (option Response)) :
  reachable dir Join st → sessionID ≠ "" →
  workers st !! i = Some w →
  downloadMap st !! sessionID = Some (w_cancelChan w) →
  downloadHandler sessionID t st = Some (r, st1) →
  run dir Join acts st1 = Some (rs, st') →
  (∀ s, downloadMap st' !! s ≠ Some (w_cancelChan w)) ∧
  (∀ s, mu st' ≠ CancelSending s (w_cancelChan w)) ∧
  ∃ w', workers st' !! i = Some w' ∧ w_cancelChan w' = w_cancelChan w ∧
        ∀ filePath rs0 rest, w_pc w' = AtSelect filePath rs0 rest →
          worker_step dir Join i w' st'
          = Some (read_chunk i w' filePath rs0 rest st').
Proof.
  intros HR%reachable_Reg Hsid Hi Hd Hh Hrun.
  destruct (reg_download _ HR _ _ Hd) as [Hlt Hown].
  assert (Hw1 : workers st1 !! i = Some w ∧ unregistered (w_cancelChan w) st1).
  { destruct (downloadHandler_effect _ _ _ _ _ Hh)
      as [[? _]|(_ & _ & Hm' & Hch & _ & Hws & _ & Hd1 & Hother & _)];
      [done|].
    split; [rewrite Hws; by apply lookup_app_l_Some|].
    split; [lia|]. split; [|congruence].
    intros s Hs. destruct (decide (s = sessionID)) as [->|Hne].
    - rewrite Hd1 in Hs. injection Hs as Hs. lia.
    - destruct (Hother s Hne) as (_ & Hds & _). rewrite Hds in Hs.
      destruct (reg_download _ HR _ _ Hs) as [_ Hown'].
      apply Hne. rewrite <- (Hown i w Hi eq_refl). symmetry. by eapply Hown'. }
  destruct Hw1 as [Hi1 Hun1].
  destruct (unregistered_run _ _ _ _ _ _ _ Hun1 Hi1 eq_refl Hrun)
    as ((Hlt' & Hd' & Hm') & w' & Hi' & Hc' & _).
  repeat split; try done. exists w'. repeat split; try done.
  intros filePath rs0 rest Hpc. apply unregistered_reads; [|done].
  rewrite Hc'. done.
Qed.

(** X5: when a worker has exited, every other worker of the same
    sessionID, such as the one of a later start, is without registration:
    progress and cancel requests for the ID are answered NotFound, and
    whatever happens next that worker's channel is in no [downloadMap]
    entry and no cancel request sends on it. *)
Theorem X5_exit_unregisters_other_workers (st st1 st' : State) (i j : nat)
    (w wj : Worker) (acts : list Action) (rs : list (option Response)) :
  reachable dir Join st → w_sessionID w ≠ "" →
  workers st !! i = Some w → w_pc w = AtCleanup →
  workers st !! j = Some wj → w_sessionID wj = w_sessionID w →
  step dir Join (Run i) st = Some (None, st1) →
  progressHandler (w_sessionID w) st1
  = Some (http_Error "session not found" StatusNotFound, st1) ∧
  cancelHandler (w_sessionID w) st1
  = Some (Some (http_Error "no download in progress for this session"
                  StatusNotFound), st1) ∧
  (run dir Join acts st1 = Some (rs, st') →
   (∀ s, downloadMap st' !! s ≠ Some (w_cancelChan wj)) ∧
   (∀ s, mu st' ≠ CancelSending s (w_cancelChan wj))).
Proof.
  intros HR%reachable_Reg Hsid Hi Hpc Hj Hsame Hstep.
  destruct (step_worker_ids _ _ _ _ _ _ Hj Hstep) as (w1 & Hj1 & _ & Hc1 & _).
  simpl in Hstep. rewrite Hi in Hstep. unfold worker_step in Hstep.
  rewrite Hpc in Hstep. destruct (is_unlocked st) eqn:Hun; simplify_eq/=.
  apply is_unlocked_true in Hun.
  split; [|split].
  - unfold progressHandler, is_unlocked. simpl.
    rewrite Hun, lookup_delete_eq. by case_decide.
  - unfold cancelHandler, is_unlocked. simpl.
    rewrite Hun, lookup_delete_eq. by case_decide.
  - intros Hrun.
    assert (Hunreg : unregistered (w_cancelChan w1)
                       (set_pc i w Exited (delete_session (w_sessionID w) st))).
    { rewrite Hc1. split; [simpl; by eapply reg_chan|].
      split; simpl; [|congruence].
      intros s [Hne Hs]%lookup_delete_Some.
      destruct (reg_download _ HR _ _ Hs) as [_ Hown].
      apply Hne. rewrite <- Hsame. by eapply Hown. }
    destruct (unregistered_run _ _ _ _ _ _ _ Hunreg Hj1 eq_refl Hrun)
      as ((_ & Hd' & Hm') & _).
    rewrite Hc1 in Hd', Hm'. by split.
Qed.

Lemma cancelHandler_sent_effect (r : Response) (st st' : State) :
  cancelHandler_sent st = Some (r, st') →
  ∃ sid, mu st = CancelSent sid ∧
         r = {| status := StatusOK; body := NoBody |} ∧
         mu st' = Unlocked ∧
         heap st' = heap st ++ [zeroProgress] ∧
         workers st' = workers st ∧
         chans st' = chans st ∧
         progressMap st' = <[sid := length (heap st)]> (progressMap st) ∧
         downloadMap st' = downloadMap st ∧
         fileMap st' = delete sid (fileMap st) ∧
         completedFiles st' = completedFiles st ∧
         match fileMap st !! sid with
         | Some filePath =>
             (filePath ∉ storage st') ∧
             (if decide (filePath ∈ storage st)
              then storage st' = storage st ∖ {[filePath]} ∧ log st' = log st
              else storage st' = storage st ∧
                   log st' = log st ++ ["Error deleting file"])
         | None => storage st' = storage st ∧ log st' = log st
         end.
Proof.
  intros Hh. unfold cancelHandler_sent in Hh.
  destruct (mu st) as [| |sid] eqn:Hmu; simplify_eq/=.
  exists sid. split; [done|]. split; [done|]. split; [done|].
  destruct (fileMap st !! sid) as [filePath|] eqn:Hf; simpl.
  - rewrite heap_os_Remove, workers_os_Remove.
    destruct (os_Remove_frame filePath st) as (_ & -> & -> & -> & ->).
    repeat split; try done; unfold os_Remove; case_decide; simpl; try done.
    apply not_elem_of_difference. right. by apply elem_of_singleton.
  - repeat split; try done. symmetry. by apply delete_id.
Qed.

Lemma shows_zero_step (sid : string) (a : Action) (r : option Response)
    (st st' : State) :
  Reg st → shows_zero sid st → step dir Join a st = Some (r, st') →
  (∀ t, a ≠ POST_download sid t) → shows_zero sid st'.
Proof.
  intros HR Hz Hstep Hno.
  destruct a as [i|s|s t|s| |]; simpl in Hstep.
  - destruct (workers st !! i) as [w|] eqn:Hi; [|done].
    destruct (worker_step dir Join i w st) as [st1|] eqn:Hw; simplify_eq/=.
    destruct (worker_step_effect i w st st' Hi Hw)
      as ([pc Hws] & _ & _ & Hheap & _ & Hpm & _).
    intros l Hl%Hpm. destruct (Hz l Hl) as [Hcell Hfree]. split.
    + rewrite Hheap; [done|]. intros ->. by eapply Hfree.
    + rewrite Hws. intros j wj (w0 & Hj & _ & _ & ->)%(lookup_moved _ _ _ _ _ _ Hi).
      by eapply Hfree.
  - unfold progressHandler in Hstep. by repeat (case_match; simplify_eq/=).
  - destruct (downloadHandler s t st) as [[r1 st1]|] eqn:Hh; simplify_eq/=.
    destruct (downloadHandler_effect _ _ _ _ _ Hh)
      as [[_ ->]|(_ & _ & _ & _ & Hheap & Hws & _ & _ & Hother & _)]; [done|].
    assert (s ≠ sid) as Hne by (intros ->; by eapply Hno).
    intros l Hl. destruct (Hother sid (not_eq_sym Hne)) as (Hp & _).
    rewrite Hp in Hl. destruct (Hz l Hl) as [Hcell Hfree].
    rewrite Hheap, Hws. split; [by apply lookup_app_l_Some|].
    intros j wj [Hj|[_ Hj]]%lookup_app_Some; [by eapply Hfree|].
    apply list_lookup_singleton_Some in Hj as [_ <-]. simpl.
    apply lookup_lt_Some in Hcell. lia.
  - unfold cancelHandler in Hstep. by repeat (case_match; simplify_eq/=).
  - destruct (cancelHandler_sent st) as [[r1 st1]|] eqn:Hh; simplify_eq/=.
    destruct (cancelHandler_sent_effect _ _ _ Hh)
      as (s & _ & _ & _ & Hheap & Hws & _ & Hpm & _).
    intros l. rewrite Hpm, Hheap, Hws.
    intros [[<- <-]|[Hne Hl]]%lookup_insert_Some.
    + split; [by rewrite lookup_app_r, Nat.sub_diag|].
      intros j wj Hj%(reg_cell _ HR). lia.
    + destruct (Hz l Hl) as [Hcell Hfree].
      split; [by apply lookup_app_l_Some|done].
  - unfold completedHandler in Hstep. by repeat (case_match; simplify_eq/=).
Qed.

(** X6: once a cancel request for a sessionID has been answered, a poller
    of that ID is shown 0 bytes of 0 and 0 percent for as long as the ID is
    registered and not started again, whatever the cancelled worker, which
    keeps its own struct, goes on to download. *)
Theorem X6_cancelled_session_reports_zero (sessionID : string) (r : Response)
    (st st1 st' : State) (acts : list Action) (rs : list (option Response))
    (p : ProgressResponse) :
  reachable dir Join st → mu st = CancelSent sessionID →
  cancelHandler_sent st = Some (r, st1) →
  Forall (λ a, ∀ t, a ≠ POST_download sessionID t) acts →
  run dir Join acts st1 = Some (rs, st') →
  GetProgress sessionID st' = Some p →
  p = zeroProgress.
Proof.
  intros HR%reachable_Reg Hmu Hh Hacts Hrun HG.
  assert (HR1 : Reg st1) by (by eapply Reg_cancel_sent).
  assert (Hz1 : shows_zero sessionID st1).
  { destruct (cancelHandler_sent_effect _ _ _ Hh)
      as (s & Hs & _ & _ & Hheap & Hws & _ & Hpm & _).
    rewrite Hmu in Hs. injection Hs as <-.
    intros l. rewrite Hpm, Hheap, Hws, lookup_insert_eq. intros [= <-].
    split; [by rewrite lookup_app_r, Nat.sub_diag|].
    intros j wj Hj%(reg_cell _ HR). lia. }
  clear Hh HR Hmu.
  assert (Hz : shows_zero sessionID st').
  { revert rs st1 HR1 Hz1 Hrun.
    induction Hacts as [|a acts Ha _ IH]; intros rs st1 HR1 Hz1 Hrun;
      simpl in Hrun; [by simplify_eq|].
    destruct (step dir Join a st1) as [[r1 st2]|] eqn:Hs; simpl in Hrun; [|done].
    destruct (run dir Join acts st2) as [[rs1 st3]|] eqn:Hrest; simplify_eq/=.
    eapply IH; [| |done]; [by eapply Reg_step|by eapply shows_zero_step]. }
  unfold GetProgress, progressHandler in HG.
  repeat (case_match; simplify_eq/=).
  match goal with
  | H : progressMap _ !! _ = Some ?l |- _ => destruct (Hz l H) as [Hcell _]
  end.
  by rewrite (deref_lookup _ _ _ Hcell).
Qed.

Lemma GetProgress_Some (sid : string) (st : State) (p : ProgressResponse) :
  GetProgress sid st = Some p →
  mu st = Unlocked ∧ ∃ l, progressMap st !! sid = Some l ∧ p = deref st l.
Proof.
  unfold GetProgress, progressHandler. intros HG.
  repeat (case_match; simplify_eq/=).
  split; [by apply is_unlocked_true|]. eauto.
Qed.

Lemma read_chunk_heap_same (i : nat) (w : Worker) (filePath : string)
    (rs : list ReadResult) (rest : list File) (st : State) :
  ¬ 0 < rd_n (hd at_eof rs) →
  heap (read_chunk i w filePath rs rest st) = heap st.
Proof.
  intros Hn. unfold read_chunk.
  destruct (0 <? rd_n (hd at_eof rs)) eqn:Hlt; [by apply Z.ltb_lt in Hlt|].
  simpl. by repeat (case_match; simpl).
Qed.

Lemma worker_step_mono (i : nat) (w : Worker) (st st' : State)
    (p p' : ProgressResponse) :
  Inv (heap st) (workers st) → workers st !! i = Some w →
  worker_step dir Join i w st = Some st' →
  heap st !! w_progress w = Some p → heap st' !! w_progress w = Some p' →
  DownloadedBytes p ≤ DownloadedBytes p'.
Proof.
  intros HI Hi Hstep Hp Hp'.
  destruct (inv_workers _ _ HI i w Hi) as (q & Hq & Hok).
  assert (q = p) as -> by congruence.
  assert (Hsame : heap st' = heap st → DownloadedBytes p ≤ DownloadedBytes p').
  { intros Hh. rewrite Hh in Hp'. assert (p' = p) as -> by congruence. lia. }
  pose proof (lookup_lt_Some _ _ _ Hp) as Hlt.
  unfold worker_ok in Hok. unfold worker_step in Hstep.
  destruct (w_pc w) as [|[|f rest]|filePath rs rest|filePath rest| |] eqn:Hpc.
  - destruct (w_torrent w); simplify_eq/=; try (by apply Hsame).
    rewrite (deref_lookup _ _ _ Hp), list_lookup_insert_eq in Hp' by done.
    injection Hp' as <-. simpl. lia.
  - case_match; simplify_eq/=. by apply Hsame.
  - destruct (f_open f); simplify_eq/=; by apply Hsame.
  - assert (Hread : heap st' = heap (read_chunk i w filePath rs rest st) →
                    DownloadedBytes p ≤ DownloadedBytes p').
    { intros Hh. rewrite Hh in Hp'.
      destruct (decide (0 < rd_n (hd at_eof rs))) as [Hn|Hn].
      - destruct rs as [|rd rs]; simpl in Hn; [lia|].
        rewrite (read_chunk_heap i w filePath rd rs rest st p Hp Hn) in Hp'.
        injection Hp' as <-.
        destruct Hok as ([_ Hrs]%Forall_cons & Hrest & Hcnt).
        pose proof (sum_reads_nonneg _ Hrs).
        pose proof (sum_lengths_nonneg _ Hrest).
        simpl in Hcnt. fold (sum_reads rs) in Hcnt.
        destruct (advance_counts p (rd_n rd) (sum_reads rs + sum_lengths rest))
          as [_ _]; [lia|lia| |].
        { destruct Hcnt as (? & ? & ? & ?). repeat split; try done; lia. }
        destruct Hcnt as (HD & Hle & Hmax & _).
        unfold advance. simpl. unfold Int64.add.
        rewrite wrap_in_range by (unfold Int64.min; lia). lia.
      - rewrite read_chunk_heap_same in Hp' by done.
        assert (p' = p) as -> by congruence. lia. }
    destruct (mu st) as [|sid c|sid]; [|case_decide|]; simplify_eq/=;
      try (by apply Hread). by apply Hsame.
  - simplify_eq/=. apply Hsame. simpl. apply heap_os_Remove.
  - case_match; simplify_eq/=. by apply Hsame.
  - done.
Qed.

(** X7: when every torrent keeps the client's contract, what a poller of a
    session is shown as DownloadedBytes never goes down from one step to
    the next, unless the step is the answer to a cancel request or a new
    start of that session. *)
Theorem X7_progress_never_goes_back (a : Action) (r : option Response)
    (st st' : State) (sessionID : string) (p p' : ProgressResponse) :
  reachable dir Join st → step dir Join a st = Some (r, st') →
  a ≠ Resume_cancel → (∀ t, a ≠ POST_download sessionID t) →
  GetProgress sessionID st = Some p → GetProgress sessionID st' = Some p' →
  DownloadedBytes p ≤ DownloadedBytes p'.
Proof.
  intros Hreach Hstep Hres Hno HG HG'.
  pose proof (reachable_Inv _ _ _ Hreach) as HI.
  pose proof (reachable_Reg _ Hreach) as HR.
  destruct (GetProgress_Some _ _ _ HG) as (Hmu & l & Hl & ->).
  destruct (GetProgress_Some _ _ _ HG') as (Hmu' & l' & Hl' & ->).
  destruct (reg_progress _ HR _ _ Hl) as [Hlt Hown].
  destruct (lookup_lt_is_Some_2 _ _ Hlt) as [p Hp].
  rewrite (deref_lookup _ _ _ Hp).
  assert (Hsame : st' = st → DownloadedBytes p ≤ DownloadedBytes (deref st' l')).
  { intros ->. assert (l' = l) as -> by congruence.
    rewrite (deref_lookup _ _ _ Hp). lia. }
  destruct a as [i|s|s t|s| |]; simpl in Hstep.
  - destruct (workers st !! i) as [w|] eqn:Hi; [|done].
    destruct (worker_step dir Join i w st) as [st1|] eqn:Hw; simplify_eq/=.
    destruct (worker_step_effect i w st st' Hi Hw)
      as (_ & _ & Hlen & Hheap & _ & Hpm & _).
    apply Hpm in Hl'. assert (l' = l) as -> by congruence.
    rewrite <- Hlen in Hlt. destruct (lookup_lt_is_Some_2 _ _ Hlt) as [p' Hp'].
    rewrite (deref_lookup _ _ _ Hp').
    destruct (decide (l = w_progress w)) as [->|Hne].
    + by eapply worker_step_mono.
    + rewrite Hheap in Hp' by done. assert (p' = p) as -> by congruence. lia.
  - unfold progressHandler in Hstep.
    apply Hsame. by repeat (case_match; simplify_eq/=).
  - destruct (downloadHandler s t st) as [[r1 st1]|] eqn:Hh; simplify_eq/=.
    destruct (downloadHandler_effect _ _ _ _ _ Hh)
      as [[_ ->]|(_ & _ & _ & _ & Hheap & _ & _ & _ & Hother & _)];
      [by apply Hsame|].
    assert (s ≠ sessionID) as Hne by (intros ->; by eapply Hno).
    destruct (Hother sessionID (not_eq_sym Hne)) as (Hpm & _).
    rewrite Hpm in Hl'. assert (l' = l) as -> by congruence.
    unfold deref. rewrite Hheap, (lookup_app_l_Some _ _ _ _ Hp). simpl. lia.
  - unfold cancelHandler in Hstep.
    repeat (case_match; simplify_eq/=); by apply Hsame.
  - done.
  - unfold completedHandler in Hstep.
    apply Hsame. by repeat (case_match; simplify_eq/=).
Qed.

Lemma wrap_add_wrap (a b : Z) :
  Int64.wrap (Int64.wrap a + b) = Int64.wrap (a + b).
Proof.
  unfold Int64.wrap. f_equal.
  replace ((a + 2 ^ 63) mod 2 ^ 64 - 2 ^ 63 + b + 2 ^ 63)
    with ((a + 2 ^ 63) mod 2 ^ 64 + b) by lia.
  rewrite Zplus_mod_idemp_l. f_equal. lia.
Qed.

Lemma wrap_range (z : Z) : Int64.min ≤ Int64.wrap z ≤ Int64.max.
Proof.
  unfold Int64.wrap, Int64.min, Int64.max.
  pose proof (Z.mod_pos_bound (z + 2 ^ 63) (2 ^ 64)). lia.
Qed.

(** X8: the total of [downloadTorrent] is the sum of the lengths of the
    files modulo 2^64, as a signed 64-bit number: lengths that add up beyond
    [int64] give a total that is too small, negative or 0. *)
Theorem X8_totalSize_wraps (fs : list File) :
  totalSize fs = Int64.wrap (sum_lengths fs) ∧
  Int64.min ≤ totalSize fs ≤ Int64.max.
Proof.
  assert (H : ∀ acc, fold_left (λ a f, Int64.add a (f_Length f)) fs
                       (Int64.wrap acc)
                     = Int64.wrap (acc + sum_lengths fs)).
  { induction fs as [|f fs IH]; intros acc; simpl.
    - f_equal. lia.
    - fold (sum_lengths fs). unfold Int64.add at 2.
      rewrite wrap_add_wrap, IH. f_equal. lia. }
  assert (Heq : totalSize fs = Int64.wrap (sum_lengths fs)).
  { unfold totalSize. change 0 with (Int64.wrap 0) at 1. by rewrite H. }
  split; [done|]. rewrite Heq. apply wrap_range.
Qed.

(** X9: [basicAuth] of main.go lets a request through exactly when the
    password it carries is what the map [users] gives for its user name, a
    name that is not in the map giving the empty string: every user name
    that has no entry is let through with an empty password.  With the
    entries of main.go, those are all names but demo and downloads. *)
Theorem X9_basicAuth_passes (A : Type) (table : gmap string string)
    (auth : option (string * string)) (handler : A) :
  (basicAuth table auth handler = Passed handler ↔
   ∃ user pass, auth = Some (user, pass) ∧
                (table !! user = Some pass ∨
                 (table !! user = None ∧ pass = ""))) ∧
  (∀ user, user ≠ "demo" → user ≠ "downloads" →
           basicAuth users (Some (user, "")) handler = Passed handler).
Proof.
  split.
  - unfold basicAuth. destruct auth as [[user pass]|]; [|split; [done|]].
    + destruct (table !! user) as [v|] eqn:Hv; simpl; case_decide as Hd.
      * split; [|done]. intros _. exists user, pass. subst v. eauto.
      * split; [done|].
        intros (u & p & [= <- <-] & [H|[H _]]); rewrite Hv in H; congruence.
      * split; [|done]. intros _. exists user, pass. eauto.
      * split; [done|].
        intros (u & p & [= <- <-] & [H|[_ ->]]); [congruence|done].
    + by intros (u & p & ? & _).
  - intros user H1 H2. unfold basicAuth, users.
    rewrite !lookup_insert_ne by congruence. rewrite lookup_empty.
    reflexivity.
Qed.

Lemma os_Remove_in (path : string) (st : State) :
  path ∈ storage st →
  os_Remove path st = set_storage (storage st ∖ {[path]}) st.
Proof. intros Hin. unfold os_Remove. by case_decide. Qed.

Lemma os_Remove_notin (path : string) (st : State) :
  path ∉ storage st → os_Remove path st = log_Printf "Error deleting file" st.
Proof. intros Hin. unfold os_Remove. by case_decide. Qed.

Lemma not_in_removed (path : string) (s : gset string) : path ∉ s ∖ {[path]}.
Proof. apply not_elem_of_difference. right. by apply elem_of_singleton. Qed.

(** An accepted cancel request, in both orders in which the handler and the
    worker can go on after the signal. *)
Lemma cancel_effect (sid : string) (i : nat) (w : Worker) (path : string)
    (rs : list ReadResult) (rest : list File) (st : State)
    (acts : list Action) :
  sid ≠ "" → mu st = Unlocked →
  workers st !! i = Some w → w_sessionID w = sid →
  w_pc w = AtSelect path rs rest →
  downloadMap st !! sid = Some (w_cancelChan w) →
  fileMap st !! sid = Some path → path ∈ storage st →
  acts = [POST_cancel sid; Run i; Resume_cancel; Run i] ∨
  acts = [POST_cancel sid; Run i; Run i; Resume_cancel] →
  ∃ rs' st',
    run dir Join acts st = Some (rs', st') ∧
    Some {| status := StatusOK; body := NoBody |} ∈ rs' ∧
    storage st' = storage st ∖ {[path]} ∧
    log st' = log st ++ ["Error deleting file"] ∧
    fileMap st' !! sid = None ∧
    mu st' = Unlocked ∧
    progressMap st' !! sid = Some (length (heap st)) ∧
    heap st' = heap st ++ [zeroProgress] ∧
    workers st' !! i = Some (with_pc w (AtFiles rest)).
Proof.
  intros Hsid Hmu Hi Hw Hpc Hc Hf Hin Hacts.
  pose proof (lookup_lt_Some _ _ _ Hi) as Hlt.
  set (st1 := set_mu (CancelSending sid (w_cancelChan w)) st).
  assert (H1 : step dir Join (POST_cancel sid) st = Some (None, st1)).
  { simpl. unfold cancelHandler, is_unlocked. rewrite Hmu, Hc. by case_decide. }
  set (w2 := with_pc w (AtRemove path rest)).
  set (st2 := set_pc i w (AtRemove path rest) (set_mu (CancelSent sid) st1)).
  assert (H2 : step dir Join (Run i) st1 = Some (None, st2)).
  { simpl. rewrite Hi. simpl. unfold worker_step. simpl. rewrite Hpc.
    by case_decide. }
  assert (Hi2 : workers st2 !! i = Some w2).
  { simpl. by apply list_lookup_insert_eq. }
  assert (Hstep_w : ∀ s, workers s !! i = Some w2 →
            step dir Join (Run i) s
            = Some (None, set_pc i w2 (AtFiles rest) (os_Remove path s))).
  { intros s Hs. simpl. by rewrite Hs. }
  destruct Hacts as [-> | ->].
  - (* the handler goes on first *)
    destruct (cancelHandler_sent st2) as [[r3 st3]|] eqn:H3; [|done].
    destruct (cancelHandler_sent_effect _ _ _ H3)
      as (s & Hs & -> & Hmu3 & Hh3 & Hws3 & _ & Hp3 & _ & Hf3 & _ & Hrm).
    simpl in Hs. injection Hs as <-.
    simpl in Hrm. rewrite Hf in Hrm. destruct Hrm as [Hout Hrm].
    rewrite decide_True in Hrm by done. destruct Hrm as [Hst3 Hlog3].
    rewrite <- Hws3 in Hi2.
    eexists _, _. split.
    { eapply run_cons; [exact H1|]. eapply run_cons; [exact H2|].
      eapply run_cons; [unfold step; by rewrite H3|].
      eapply run_cons; [by apply Hstep_w|]. reflexivity. }
    rewrite (os_Remove_notin _ _ Hout). simpl.
    rewrite Hst3, Hlog3, Hf3, Hmu3, Hp3, Hh3, Hws3. simpl.
    rewrite lookup_delete_eq, lookup_insert_eq.
    repeat split; try done.
    + repeat first [apply list_elem_of_here | apply list_elem_of_further].
    + apply list_lookup_insert_eq. by rewrite length_insert.
  - (* the worker goes on first *)
    set (st3 := set_pc i w2 (AtFiles rest) (os_Remove path st2)).
    destruct (cancelHandler_sent st3) as [[r4 st4]|] eqn:H4.
    2:{ unfold cancelHandler_sent in H4. simpl in H4.
        destruct (os_Remove_frame path st2) as (Hm & _).
        rewrite Hm in H4. simpl in H4. done. }
    destruct (cancelHandler_sent_effect _ _ _ H4)
      as (s & Hs & -> & Hmu4 & Hh4 & Hws4 & _ & Hp4 & _ & Hf4 & _ & Hrm).
    assert (Hst3 : os_Remove path st2
                   = set_storage (storage st2 ∖ {[path]}) st2).
    { apply os_Remove_in. exact Hin. }
    unfold st3 in Hs, Hh4, Hws4, Hp4, Hf4, Hrm. rewrite Hst3 in *.
    simpl in Hs. injection Hs as <-.
    simpl in Hrm. rewrite Hf in Hrm. destruct Hrm as [_ Hrm].
    rewrite decide_False in Hrm by apply not_in_removed.
    destruct Hrm as [Hst4 Hlog4].
    eexists _, _. split.
    { eapply run_cons; [exact H1|]. eapply run_cons; [exact H2|].
      eapply run_cons; [by apply Hstep_w|].
      eapply run_cons; [unfold step; fold st3; by rewrite H4|]. reflexivity. }
    rewrite Hst4, Hlog4, Hf4, Hmu4, Hp4, Hh4, Hws4. simpl.
    rewrite lookup_delete_eq, lookup_insert_eq.
    repeat split; try done.
    + repeat first [apply list_elem_of_here | apply list_elem_of_further].
    + apply list_lookup_insert_eq. by rewrite length_insert.
Qed.


Lemma string_from_app (p s : string) :
  string_from (String.length p) (p +:+ s) = s.
Proof. induction p as [|c p IH]; simpl; [by destruct s|done]. Qed.

(** X11: [downloadCompletedHandler] hands out a file while a worker is
    still writing it, and answers 404 "file not found" for it once a cancel
    request for the session has been accepted (the path being no
    directory). *)
Theorem X11_fetch_before_and_after_cancel (stat_other : string → bool)
    (sessionID : string) (i : nat)
    (w : Worker) (name : string) (rs : list ReadResult)
    (rest : list File) (st : State) (acts : list Action) :
  sessionID ≠ "" → mu st = Unlocked →
  workers st !! i = Some w → w_sessionID w = sessionID →
  w_pc w = AtSelect (Join dir name) rs rest →
  downloadMap st !! sessionID = Some (w_cancelChan w) →
  fileMap st !! sessionID = Some (Join dir name) →
  Join dir name ∈ storage st →
  stat_other (Join dir name) = false →
  acts = [POST_cancel sessionID; Run i; Resume_cancel; Run i] ∨
  acts = [POST_cancel sessionID; Run i; Run i; Resume_cancel] →
  downloadCompletedHandler dir Join stat_other ("/download/" +:+ name) st
  = Some (ServeFile ("attachment; filename=" +:+ name) (Join dir name)) ∧
  ∃ rs' st',
    run dir Join acts st = Some (rs', st') ∧
    downloadCompletedHandler dir Join stat_other ("/download/" +:+ name) st'
    = Some (FetchError (http_Error "file not found" StatusNotFound)).
Proof.
  intros Hsid Hmu Hi Hw Hpc Hc Hf Hin Hother Hacts.
  assert (Hlen : ¬ (String.length ("/download/" +:+ name)
                    < String.length "/download/")%nat).
  { simpl. lia. }
  assert (Hname : string_from (String.length "/download/")
                    ("/download/" +:+ name) = name).
  { apply string_from_app. }
  split.
  - unfold downloadCompletedHandler.
    rewrite decide_False by done. rewrite Hname.
    by rewrite bool_decide_eq_true_2.
  - destruct (cancel_effect sessionID i w (Join dir name) rs rest st acts)
      as (rs' & st' & Hrun & _ & Hst & _); try done.
    exists rs', st'. split; [done|].
    unfold downloadCompletedHandler.
    rewrite decide_False by done. rewrite Hname, Hst, Hother.
    by rewrite bool_decide_eq_false_2 by apply not_in_removed.
Qed.

(** X12: a torrent without files is recorded as completed at once: the
    worker sets a total of 0, enters the session in [completedFiles] under
    the path of its [fileMap] entry, the empty path when there is none,
    logs a successful download, unregisters the session and exits, without
    creating a file. *)
Theorem X12_empty_torrent_is_completed (i : nat) (w : Worker) (st : State)
    (p : ProgressResponse) :
  mu st = Unlocked → workers st !! i = Some w →
  w_pc w = AtStart → w_torrent w = GotInfo [] →
  heap st !! w_progress w = Some p →
  ∃ st',
    run dir Join [Run i; Run i; Run i] st = Some ([None; None; None], st') ∧
    completedFiles st' !! w_sessionID w
    = Some (default "" (fileMap st !! w_sessionID w)) ∧
    heap st' !! w_progress w
    = Some {| Progress := Progress p; DownloadedBytes := DownloadedBytes p;
              TotalSizeBytes := 0 |} ∧
    progressMap st' !! w_sessionID w = None ∧
    downloadMap st' !! w_sessionID w = None ∧
    storage st' = storage st ∧
    log st' = log st ++
              ["Completed file added: "
                 +:+ default "" (fileMap st !! w_sessionID w);
               "Torrent downloaded successfully"] ∧
    workers st' !! i = Some (with_pc w Exited).
Proof.
  intros Hmu Hi Hpc Ht Hp.
  pose proof (lookup_lt_Some _ _ _ Hi) as Hlt.
  pose proof (lookup_lt_Some _ _ _ Hp) as Hltp.
  eexists. split.
  { eapply run_cons.
    { simpl. rewrite Hi. simpl. unfold worker_step. rewrite Hpc, Ht.
      reflexivity. }
    eapply run_cons.
    { simpl. rewrite list_lookup_insert_eq by done. simpl.
      unfold worker_step, is_unlocked. simpl. rewrite Hmu. reflexivity. }
    eapply run_cons.
    { simpl. rewrite list_lookup_insert_eq by (by rewrite length_insert).
      simpl. unfold worker_step, is_unlocked. simpl. rewrite Hmu.
      reflexivity. }
    reflexivity. }
  simpl. rewrite (deref_lookup _ _ _ Hp), !lookup_delete_eq.
  repeat split; try done.
  - apply lookup_insert_eq.
  - by apply list_lookup_insert_eq.
  - by rewrite <- app_assoc.
  - apply list_lookup_insert_eq. by rewrite !length_insert.
Qed.

End Registry.

Section Races.

Variable dir : string.
Variable Join : string → string → string.

(** X13: with a further file to download, the worker can open that file
    between the signal and the handler's removal.  [cancelHandler] then
    finds the new path in [fileMap] and removes the file the worker has just
    created and goes on to write: after the cancel request neither the
    cancelled file nor the next one is in the storage, while the worker
    stands in the read loop of the next one. *)
Theorem X13_cancel_can_remove_the_next_file (sessionID : string) (i : nat)
    (w : Worker) (filePath : string) (rs : list ReadResult) (f : File)
    (rest : list File) (st : State) :
  sessionID ≠ "" → mu st = Unlocked →
  workers st !! i = Some w → w_sessionID w = sessionID →
  w_pc w = AtSelect filePath rs (f :: rest) → f_open f = OpenOK →
  downloadMap st !! sessionID = Some (w_cancelChan w) →
  ∃ st',
    run dir Join [POST_cancel sessionID; Run i; Run i; Run i; Resume_cancel] st
    = Some ([None; None; None; None;
             Some {| status := StatusOK; body := NoBody |}], st') ∧
    (Join dir (f_Path f) ∉ storage st') ∧
    (filePath ∉ storage st') ∧
    fileMap st' !! sessionID = None ∧
    workers st' !! i
    = Some (with_pc w (AtSelect (Join dir (f_Path f)) (f_reads f) rest)).
Proof.
  intros Hsid Hmu Hi Hw Hpc Hopen Hc.
  pose proof (lookup_lt_Some _ _ _ Hi) as Hlt.
  set (st1 := set_mu (CancelSending sessionID (w_cancelChan w)) st).
  assert (H1 : step dir Join (POST_cancel sessionID) st = Some (None, st1)).
  { simpl. unfold cancelHandler, is_unlocked. rewrite Hmu, Hc. by case_decide. }
  set (w2 := with_pc w (AtRemove filePath (f :: rest))).
  set (st2 := set_pc i w (AtRemove filePath (f :: rest))
                (set_mu (CancelSent sessionID) st1)).
  assert (H2 : step dir Join (Run i) st1 = Some (None, st2)).
  { simpl. rewrite Hi. simpl. unfold worker_step. simpl. rewrite Hpc.
    by case_decide. }
  set (w3 := with_pc w2 (AtFiles (f :: rest))).
  set (st3 := set_pc i w2 (AtFiles (f :: rest)) (os_Remove filePath st2)).
  assert (H3 : step dir Join (Run i) st2 = Some (None, st3)).
  { simpl. by rewrite list_lookup_insert_eq. }
  assert (F3 : workers st3 !! i = Some w3 ∧ mu st3 = CancelSent sessionID ∧
               (filePath ∉ storage st3)).
  { unfold st3. simpl. rewrite workers_os_Remove.
    destruct (os_Remove_frame filePath st2) as (-> & _).
    split; [apply list_lookup_insert_eq; unfold st2; simpl;
            by rewrite length_insert|].
    split; [done|]. unfold os_Remove. case_decide; simpl; [|done].
    apply not_in_removed. }
  destruct F3 as (Hi3 & Hmu3 & Hout3). clearbody st3.
  set (path2 := Join dir (f_Path f)).
  set (st4 := set_pc i w3 (AtSelect path2 (f_reads f) rest)
                (set_storage ({[path2]} ∪ storage st3)
                   (log_Printf ("Attempting to create file: " +:+ path2)
                      (set_fileMap (<[sessionID := path2]> (fileMap st3)) st3)))).
  assert (H4 : step dir Join (Run i) st3 = Some (None, st4)).
  { simpl. rewrite Hi3. simpl. unfold worker_step. simpl. rewrite Hopen.
    by rewrite Hw. }
  destruct (cancelHandler_sent st4) as [[r5 st5]|] eqn:H5.
  2:{ unfold cancelHandler_sent in H5. simpl in H5. by rewrite Hmu3 in H5. }
  destruct (cancelHandler_sent_effect _ _ _ H5)
    as (s & Hs & -> & _ & _ & Hws5 & _ & _ & _ & Hf5 & _ & Hrm).
  simpl in Hs. rewrite Hmu3 in Hs. injection Hs as <-.
  simpl in Hrm. rewrite lookup_insert_eq in Hrm. destruct Hrm as [Hout5 Hrm].
  rewrite decide_True in Hrm by (apply elem_of_union; left; by apply elem_of_singleton).
  destruct Hrm as [Hst5 _].
  exists st5. split.
  { eapply run_cons; [exact H1|]. eapply run_cons; [exact H2|].
    eapply run_cons; [exact H3|]. eapply run_cons; [exact H4|].
    eapply run_cons; [unfold step; by rewrite H5|]. reflexivity. }
  split; [done|]. split; [|split].
  - rewrite Hst5. intros [[Hin|Hin]%elem_of_union Hnot]%elem_of_difference;
      done.
  - rewrite Hf5. apply lookup_delete_eq.
  - rewrite Hws5. simpl. apply list_lookup_insert_eq. by eapply lookup_lt_Some.
Qed.

(** A cancel request that waits for a worker still waiting for the info of
    its torrent. *)
Lemma stuck_at_info_step (sid : string) (c i : nat) (a : Action)
    (r : option Response) (st st' : State) :
  Reg st → stuck_at_info sid c i st → step dir Join a st = Some (r, st') →
  stuck_at_info sid c i st'.
Proof.
  intros HR (Hmu & w & Hi & Hc & Hpc & Ht) Hstep.
  destruct a as [j|s|s t|s| |]; simpl in Hstep.
  - destruct (workers st !! j) as [wj|] eqn:Hj; [|done].
    destruct (worker_step dir Join j wj st) as [st1|] eqn:Hw; simplify_eq/=.
    destruct (decide (j = i)) as [->|Hne].
    { simplify_eq. unfold worker_step in Hw. by rewrite Hpc, Ht in Hw. }
    destruct (worker_step_effect dir Join j wj st st' Hj Hw)
      as ([pc Hws] & _ & _ & _ & _ & _ & _ & Hm).
    split.
    + destruct Hm as [->|(s & Hs & _)]; [done|].
      rewrite Hmu in Hs. injection Hs as _ Hs.
      destruct Hne. eapply (reg_chan_owner _ HR); [done..|congruence].
    + exists w. rewrite Hws, list_lookup_insert_ne by done. done.
  - unfold progressHandler, is_unlocked in Hstep. rewrite Hmu in Hstep.
    case_decide; simplify_eq/=. split; eauto.
  - unfold downloadHandler, is_unlocked in Hstep. rewrite Hmu in Hstep.
    case_decide; simplify_eq/=. split; eauto.
  - unfold cancelHandler, is_unlocked in Hstep. rewrite Hmu in Hstep.
    case_decide; simplify_eq/=. split; eauto.
  - unfold cancelHandler_sent in Hstep. by rewrite Hmu in Hstep.
  - unfold completedHandler, is_unlocked in Hstep. by rewrite Hmu in Hstep.
Qed.

(** X14: a cancel request for a session whose worker still waits for the
    info of its torrent, and never gets it, holds [mu] for ever: whatever
    happens afterwards, no progress, download or cancel request that
    carries a sessionID is answered, nor any request for the completed
    files. *)
Theorem X14_cancel_before_info_locks_the_server (sessionID : string)
    (i : nat) (w : Worker) (st st' : State) (acts : list Action)
    (rs : list (option Response)) :
  reachable dir Join st → sessionID ≠ "" → mu st = Unlocked →
  workers st !! i = Some w → w_pc w = AtStart → w_torrent w = InfoPending →
  downloadMap st !! sessionID = Some (w_cancelChan w) →
  run dir Join (POST_cancel sessionID :: acts) st = Some (rs, st') →
  mu st' = CancelSending sessionID (w_cancelChan w) ∧
  (∀ s t, s ≠ "" →
     progressHandler s st' = None ∧ downloadHandler s t st' = None ∧
     cancelHandler s st' = None) ∧
  completedHandler st' = None.
Proof.
  intros HR%(reachable_Reg dir Join) Hsid Hmu Hi Hpc Ht Hc Hrun.
  simpl in Hrun. unfold cancelHandler, is_unlocked in Hrun.
  rewrite Hmu, Hc in Hrun. case_decide; [done|]. simpl in Hrun.
  set (st1 := set_mu (CancelSending sessionID (w_cancelChan w)) st) in *.
  destruct (run dir Join acts st1) as [[rs1 st2]|] eqn:Hrest; simplify_eq/=.
  assert (HR1 : Reg st1).
  { eapply (Reg_step dir Join (POST_cancel sessionID)); [exact HR|].
    simpl. unfold cancelHandler, is_unlocked. rewrite Hmu, Hc.
    by case_decide. }
  assert (Hstuck1 : stuck_at_info sessionID (w_cancelChan w) i st1).
  { split; [done|]. by exists w. }
  assert (Hstuck : stuck_at_info sessionID (w_cancelChan w) i st').
  { clear Hmu Hc HR Hi. clearbody st1. revert rs1 st1 HR1 Hstuck1 Hrest.
    induction acts as [|a acts IH]; intros rs1 st1 HR1 Hstuck1 Hrest;
      simpl in Hrest; [by simplify_eq|].
    destruct (step dir Join a st1) as [[r1 st2]|] eqn:Hs; simpl in Hrest; [|done].
    destruct (run dir Join acts st2) as [[rs2 st3]|] eqn:Hrest2; simplify_eq/=.
    eapply IH; [| |done]; [by eapply (Reg_step dir Join)|by eapply stuck_at_info_step]. }
  destruct Hstuck as (Hmu' & _).
  split; [done|].
  unfold progressHandler, downloadHandler, cancelHandler, completedHandler,
    is_unlocked. rewrite Hmu'.
  split; [|done]. intros s t Hs. by case_decide.
Qed.

End Races.

(** ** Instances of the further properties *)

Ltac wf_schedule :=
  repeat first
    [ apply Forall_nil_2
    | apply Forall_cons_2
    | exact I
    | progress unfold wf_action, wf_torrent, wf_file, wf_reads
    | split
    | by vm_compute ].

Lemma more_samples_wf :
  Forall wf_action cancel_sending ∧ Forall wf_action cancel_received ∧
  Forall wf_action two_sessions ∧ Forall wf_action failed_then_restarted ∧
  Forall wf_action empty_torrent ∧ Forall wf_action (take 4 half_way).
Proof.
  unfold cancel_sending, cancel_received.
  repeat split; try (apply Forall_app; split; [apply half_way_wf|]);
    wf_schedule.
Qed.

Lemma sample_reachable (acts : list Action) (rs : list (option Response))
    (st : State) :
  Forall wf_action acts → run "." join acts init = Some (rs, st) →
  reachable "." join st.
Proof. intros Hwf. apply run_reachable; [apply reachable_init|done]. Qed.

(** The instance of X1: the worker of the sample session receives the
    signal of the cancel request made for it. *)
Lemma X1_witness :
  ∃ rs st r st' w,
    run "." join cancel_sending init = Some (rs, st) ∧
    mu st = CancelSending "s" 0 ∧ workers st !! 0%nat = Some w ∧
    step "." join (Run 0) st = Some (r, st') ∧ mu st' = CancelSent "s" ∧
    w_sessionID w = "s" ∧ w_cancelChan w = 0%nat.
Proof.
  destruct (run "." join cancel_sending init) as [[rs st]|] eqn:Hrun;
    [|by vm_compute in Hrun].
  pose proof (sample_reachable _ _ _ (proj1 more_samples_wf) Hrun) as Hreach.
  destruct (step "." join (Run 0) st) as [[r st']|] eqn:Hstep;
    [|by vm_compute in Hrun; injection Hrun as <- <-; vm_compute in Hstep].
  assert (∃ w, mu st = CancelSending "s" 0 ∧ workers st !! 0%nat = Some w ∧
               mu st' = CancelSent "s") as (w & Hmu & Hw & Hmu').
  { vm_compute in Hrun. injection Hrun as <- <-.
    vm_compute in Hstep. injection Hstep as <- <-.
    eexists. repeat split; reflexivity. }
  destruct (X1_cancel_reaches_own_worker "." join st st' r "s" 0%nat 0%nat w
              Hreach Hmu Hw Hstep Hmu') as (Hsid & Hc & _).
  exists rs, st, r, st', w. repeat split; done.
Defined.

(** The instance of X2: a read of session s leaves session t alone. *)
Lemma X2_witness :
  ∃ rs st r st',
    run "." join two_sessions init = Some (rs, st) ∧
    step "." join (Run 0) st = Some (r, st') ∧
    actor (Run 0) st ≠ Some "t" ∧
    progressMap st' !! "t" = progressMap st !! "t" ∧
    downloadMap st' !! "t" = downloadMap st !! "t".
Proof.
  destruct (run "." join two_sessions init) as [[rs st]|] eqn:Hrun;
    [|by vm_compute in Hrun].
  pose proof (sample_reachable _ _ _
                (proj1 (proj2 (proj2 more_samples_wf))) Hrun) as Hreach.
  destruct (step "." join (Run 0) st) as [[r st']|] eqn:Hstep;
    [|by vm_compute in Hrun; injection Hrun as <- <-; vm_compute in Hstep].
  assert (Hact : actor (Run 0) st ≠ Some "t").
  { vm_compute in Hrun. injection Hrun as <- <-. by vm_compute. }
  destruct (X2_sessions_do_not_interfere "." join (Run 0) r st st' "t"
              Hreach Hstep Hact) as (Hp & Hd & _).
  exists rs, st, r, st'. repeat split; done.
Defined.

(** The instance of X3: the file of the sample session leaves the storage
    by the worker's removal. *)
Lemma X3_witness :
  ∃ rs st r st',
    run "." join cancel_received init = Some (rs, st) ∧
    step "." join (Run 0) st = Some (r, st') ∧
    "./a.mkv" ∈ storage st ∧ ("./a.mkv" ∉ storage st') ∧
    ((∃ i w rest, Run 0 = Run i ∧ workers st !! i = Some w ∧
                  w_pc w = AtRemove "./a.mkv" rest) ∨
     (∃ sessionID, Run 0 = Resume_cancel ∧ mu st = CancelSent sessionID ∧
                   fileMap st !! sessionID = Some "./a.mkv")).
Proof.
  destruct (run "." join cancel_received init) as [[rs st]|] eqn:Hrun;
    [|by vm_compute in Hrun].
  destruct (step "." join (Run 0) st) as [[r st']|] eqn:Hstep;
    [|by vm_compute in Hrun; injection Hrun as <- <-; vm_compute in Hstep].
  assert ("./a.mkv" ∈ storage st ∧ ("./a.mkv" ∉ storage st')) as [Hin Hout].
  { vm_compute in Hrun. injection Hrun as <- <-.
    vm_compute in Hstep. injection Hstep as <- <-.
    split; [by vm_compute|by vm_compute]. }
  pose proof (X3_only_cancel_removes_files "." join (Run 0) r st st' "./a.mkv"
                Hstep Hin Hout) as Hwho.
  exists rs, st, r, st'. repeat split; done.
Defined.

Lemma half_way_facts :
  ∃ rs st w,
    run "." join half_way init = Some (rs, st) ∧
    reachable "." join st ∧
    mu st = Unlocked ∧
    workers st !! 0%nat = Some w ∧
    w_sessionID w = "s" ∧
    w_pc w = AtSelect (join "." "a.mkv") [chunk 1024; chunk 476] [] ∧
    downloadMap st !! "s" = Some (w_cancelChan w) ∧
    fileMap st !! "s" = Some (join "." "a.mkv") ∧
    join "." "a.mkv" ∈ storage st.
Proof.
  destruct (run "." join half_way init) as [[rs st]|] eqn:H;
    [|by vm_compute in H].
  pose proof (sample_reachable _ _ _ half_way_wf H) as Hreach.
  vm_compute in H. injection H as <- <-.
  eexists _, _, _. split; [reflexivity|]. split; [exact Hreach|].
  repeat split; reflexivity.
Qed.

(** The instance of X4: the sample session is started again; a cancel
    request made afterwards does not reach the first worker. *)
Lemma X4_witness :
  ∃ rs st w r st1 rs' st',
    run "." join half_way init = Some (rs, st) ∧
    workers st !! 0%nat = Some w ∧
    downloadMap st !! "s" = Some (w_cancelChan w) ∧
    downloadHandler "s" InfoPending st = Some (r, st1) ∧
    run "." join [POST_cancel "s"] st1 = Some (rs', st') ∧
    (∀ s, downloadMap st' !! s ≠ Some (w_cancelChan w)) ∧
    (∀ s, mu st' ≠ CancelSending s (w_cancelChan w)).
Proof.
  destruct half_way_facts
    as (rs & st & w & Hrun & Hreach & Hmu & Hw & Hsid & Hpc & Hd & _).
  assert (Hne : "s" ≠ "") by discriminate.
  destruct (downloadHandler "s" InfoPending st) as [[r st1]|] eqn:Hh.
  2:{ unfold downloadHandler, is_unlocked in Hh. rewrite Hmu in Hh.
      by case_decide. }
  destruct (run "." join [POST_cancel "s"] st1) as [[rs' st']|] eqn:Hrun'.
  2:{ destruct (downloadHandler_effect _ _ _ _ _ Hh)
        as [[? _]|(_ & _ & Hm1 & _ & _ & _ & _ & Hd1 & _)]; [done|].
      simpl in Hrun'. unfold cancelHandler, is_unlocked in Hrun'.
      rewrite Hm1, Hd1 in Hrun'. by case_decide. }
  destruct (X4_superseded_worker_cannot_be_cancelled "." join "s" InfoPending
              r st st1 st' 0%nat w [POST_cancel "s"] rs'
              Hreach Hne Hw Hd Hh Hrun') as (H1 & H2 & _).
  exists rs, st, w, r, st1, rs', st'. repeat split; done.
Defined.

(** The instance of X5: the first worker of the restarted sample session
    cleans up; the session, whose second worker has only started, is
    unknown to the progress handler. *)
Lemma X5_witness :
  ∃ rs st w wj st1,
    run "." join failed_then_restarted init = Some (rs, st) ∧
    workers st !! 0%nat = Some w ∧ w_pc w = AtCleanup ∧
    workers st !! 1%nat = Some wj ∧ w_pc wj = AtStart ∧
    w_sessionID wj = w_sessionID w ∧
    step "." join (Run 0) st = Some (None, st1) ∧
    progressHandler (w_sessionID w) st1
    = Some (http_Error "session not found" StatusNotFound, st1).
Proof.
  destruct (run "." join failed_then_restarted init) as [[rs st]|] eqn:Hrun;
    [|by vm_compute in Hrun].
  pose proof (sample_reachable _ _ _
                (proj1 (proj2 (proj2 (proj2 more_samples_wf)))) Hrun) as Hreach.
  destruct (step "." join (Run 0) st) as [[r st1]|] eqn:Hstep;
    [|by vm_compute in Hrun; injection Hrun as <- <-; vm_compute in Hstep].
  assert (∃ w wj, workers st !! 0%nat = Some w ∧ w_pc w = AtCleanup ∧
                  workers st !! 1%nat = Some wj ∧ w_pc wj = AtStart ∧
                  w_sessionID wj = w_sessionID w ∧ w_sessionID w ≠ "" ∧
                  r = None)
    as (w & wj & Hw & Hpc & Hwj & Hpcj & Hsame & Hne & ->).
  { vm_compute in Hrun. injection Hrun as <- <-.
    vm_compute in Hstep. injection Hstep as <- <-.
    eexists _, _. repeat split; try reflexivity. discriminate. }
  destruct (X5_exit_unregisters_other_workers "." join st st1 st1 0%nat 1%nat
              w wj [] [] Hreach Hne Hw Hpc Hwj Hsame Hstep) as (H1 & _).
  exists rs, st, w, wj, st1. repeat split; done.
Defined.

(** The instance of X6: the sample session is cancelled; a step of its
    worker later a poller is shown zeros. *)
Lemma X6_witness :
  ∃ rs st r st1 rs' st' p,
    run "." join cancel_received init = Some (rs, st) ∧
    mu st = CancelSent "s" ∧
    cancelHandler_sent st = Some (r, st1) ∧
    run "." join [Run 0] st1 = Some (rs', st') ∧
    GetProgress "s" st' = Some p ∧
    p = zeroProgress.
Proof.
  destruct (run "." join cancel_received init) as [[rs st]|] eqn:Hrun;
    [|by vm_compute in Hrun].
  pose proof (sample_reachable _ _ _
                (proj1 (proj2 more_samples_wf)) Hrun) as Hreach.
  destruct (cancelHandler_sent st) as [[r st1]|] eqn:Hh;
    [|by vm_compute in Hrun; injection Hrun as <- <-; vm_compute in Hh].
  destruct (run "." join [Run 0] st1) as [[rs' st']|] eqn:Hrun';
    [|by vm_compute in Hrun; injection Hrun as <- <-;
         vm_compute in Hh; injection Hh as <- <-; vm_compute in Hrun'].
  destruct (GetProgress "s" st') as [p|] eqn:HG;
    [|by vm_compute in Hrun; injection Hrun as <- <-;
         vm_compute in Hh; injection Hh as <- <-;
         vm_compute in Hrun'; injection Hrun' as <- <-; vm_compute in HG].
  assert (Hmu : mu st = CancelSent "s").
  { vm_compute in Hrun. by injection Hrun as <- <-. }
  assert (Hacts : Forall (λ a, ∀ t, a ≠ POST_download "s" t) [Run 0]).
  { apply Forall_cons_2; [done|apply Forall_nil_2]. }
  pose proof (X6_cancelled_session_reports_zero "." join "s" r st st1 st'
                [Run 0] rs' p Hreach Hmu Hh Hacts Hrun' HG) as Hzero.
  exists rs, st, r, st1, rs', st', p. repeat split; done.
Defined.

(** The instance of X7: the second read of the sample session takes the
    poller from 1000 to 1500 bytes. *)
Lemma X7_witness :
  ∃ rs st r st' p p',
    run "." join (take 4 half_way) init = Some (rs, st) ∧
    step "." join (Run 0) st = Some (r, st') ∧
    GetProgress "s" st = Some p ∧ GetProgress "s" st' = Some p' ∧
    DownloadedBytes p = 1000 ∧ DownloadedBytes p' = 1500 ∧
    DownloadedBytes p ≤ DownloadedBytes p'.
Proof.
  destruct (run "." join (take 4 half_way) init) as [[rs st]|] eqn:Hrun;
    [|by vm_compute in Hrun].
  pose proof (sample_reachable _ _ _
                (proj2 (proj2 (proj2 (proj2 (proj2 more_samples_wf))))) Hrun)
    as Hreach.
  destruct (step "." join (Run 0) st) as [[r st']|] eqn:Hstep;
    [|by vm_compute in Hrun; injection Hrun as <- <-; vm_compute in Hstep].
  assert (∃ p p', GetProgress "s" st = Some p ∧ GetProgress "s" st' = Some p' ∧
                  DownloadedBytes p = 1000 ∧ DownloadedBytes p' = 1500)
    as (p & p' & HG & HG' & HD & HD').
  { vm_compute in Hrun. injection Hrun as <- <-.
    vm_compute in Hstep. injection Hstep as <- <-.
    eexists _, _. repeat split; reflexivity. }
  assert (Hres : Run 0 ≠ Resume_cancel) by discriminate.
  assert (Hno : ∀ t, Run 0 ≠ POST_download "s" t) by discriminate.
  pose proof (X7_progress_never_goes_back "." join (Run 0) r st st' "s" p p'
                Hreach Hstep Hres Hno HG HG') as Hle.
  exists rs, st, r, st', p, p'. repeat split; done.
Defined.


(** The instance of X11: the file of the sample session is handed out half
    way through the download, and not found after the cancel request. *)
Lemma X11_witness :
  ∃ rs st rs' st',
    run "." join half_way init = Some (rs, st) ∧
    downloadCompletedHandler "." join (λ _, false) "/download/a.mkv" st
    = Some (ServeFile "attachment; filename=a.mkv" "./a.mkv") ∧
    run "." join [POST_cancel "s"; Run 0; Run 0; Resume_cancel] st
    = Some (rs', st') ∧
    downloadCompletedHandler "." join (λ _, false) "/download/a.mkv" st'
    = Some (FetchError (http_Error "file not found" StatusNotFound)).
Proof.
  destruct half_way_facts
    as (rs & st & w & Hrun & _ & Hmu & Hw & Hsid & Hpc & Hd & Hf & Hin).
  assert (Hne : "s" ≠ "") by discriminate.
  destruct (X11_fetch_before_and_after_cancel "." join (λ _, false) "s" 0%nat
              w "a.mkv" [chunk 1024; chunk 476] [] st
              [POST_cancel "s"; Run 0; Run 0; Resume_cancel]
              Hne Hmu Hw Hsid Hpc Hd Hf Hin eq_refl (or_intror eq_refl))
    as (Hserve & rs' & st' & Hrun' & Hgone).
  exists rs, st, rs', st'. repeat split; done.
Defined.

(** The instance of X12: a session whose torrent has no files. *)
Lemma X12_witness :
  ∃ rs st w st',
    run "." join empty_torrent init = Some (rs, st) ∧
    mu st = Unlocked ∧ workers st !! 0%nat = Some w ∧
    w_pc w = AtStart ∧ w_torrent w = GotInfo [] ∧ w_sessionID w = "s" ∧
    run "." join [Run 0; Run 0; Run 0] st = Some ([None; None; None], st') ∧
    completedFiles st' !! "s" = Some "".
Proof.
  destruct (run "." join empty_torrent init) as [[rs st]|] eqn:Hrun;
    [|by vm_compute in Hrun].
  assert (∃ w, mu st = Unlocked ∧ workers st !! 0%nat = Some w ∧
               w_pc w = AtStart ∧ w_torrent w = GotInfo [] ∧
               w_sessionID w = "s" ∧
               heap st !! w_progress w = Some zeroProgress ∧
               fileMap st !! "s" = None)
    as (w & Hmu & Hw & Hpc & Ht & Hsid & Hp & Hf).
  { vm_compute in Hrun. injection Hrun as <- <-.
    eexists. repeat split; reflexivity. }
  destruct (X12_empty_torrent_is_completed "." join 0%nat w st zeroProgress
              Hmu Hw Hpc Ht Hp) as (st' & Hrun' & Hc & _).
  rewrite Hsid, Hf in Hc.
  exists rs, st, w, st'. repeat split; done.
Defined.

(** The instance of X13: a session of two files is cancelled at the
    first; the handler goes on after the worker has opened the second. *)
Lemma X13_witness :
  ∃ rs st w st',
    run "." join two_files init = Some (rs, st) ∧
    mu st = Unlocked ∧ workers st !! 0%nat = Some w ∧
    w_pc w = AtSelect "./a.mkv" [] [file "b.mkv" 2000 [chunk 1024]] ∧
    run "." join [POST_cancel "s"; Run 0; Run 0; Run 0; Resume_cancel] st
    = Some ([None; None; None; None;
             Some {| status := StatusOK; body := NoBody |}], st') ∧
    ("./b.mkv" ∉ storage st') ∧ ("./a.mkv" ∉ storage st').
Proof.
  destruct (run "." join two_files init) as [[rs st]|] eqn:Hrun;
    [|by vm_compute in Hrun].
  assert (∃ w, mu st = Unlocked ∧ workers st !! 0%nat = Some w ∧
               w_sessionID w = "s" ∧
               w_pc w = AtSelect "./a.mkv" [] [file "b.mkv" 2000 [chunk 1024]] ∧
               downloadMap st !! "s" = Some (w_cancelChan w))
    as (w & Hmu & Hw & Hsid & Hpc & Hd).
  { vm_compute in Hrun. injection Hrun as <- <-.
    eexists. repeat split; reflexivity. }
  assert (Hne : "s" ≠ "") by discriminate.
  destruct (X13_cancel_can_remove_the_next_file "." join "s" 0%nat w "./a.mkv"
              [] (file "b.mkv" 2000 [chunk 1024]) [] st
              Hne Hmu Hw Hsid Hpc eq_refl Hd)
    as (st' & Hrun' & Hb & Ha & _).
  exists rs, st, w, st'. repeat split; done.
Defined.

Lemma no_info_wf : Forall wf_action no_info.
Proof. wf_schedule. Qed.

(** The instance of X14: the info of the session's torrent does not
    arrive, and the session is sent a cancel request. *)
Lemma X14_witness :
  ∃ rs st w rs' st',
    run "." join no_info init = Some (rs, st) ∧
    mu st = Unlocked ∧ workers st !! 0%nat = Some w ∧
    w_pc w = AtStart ∧ w_torrent w = InfoPending ∧
    run "." join [POST_cancel "s"; GET_progress ""] st = Some (rs', st') ∧
    mu st' = CancelSending "s" (w_cancelChan w) ∧
    progressHandler "s" st' = None.
Proof.
  destruct (run "." join no_info init) as [[rs st]|] eqn:Hrun;
    [|by vm_compute in Hrun].
  pose proof (sample_reachable _ _ _ no_info_wf Hrun) as Hreach.
  destruct (run "." join [POST_cancel "s"; GET_progress ""] st)
    as [[rs' st']|] eqn:Hrun';
    [|by vm_compute in Hrun; injection Hrun as <- <-; vm_compute in Hrun'].
  assert (∃ w, mu st = Unlocked ∧ workers st !! 0%nat = Some w ∧
               w_pc w = AtStart ∧ w_torrent w = InfoPending ∧
               downloadMap st !! "s" = Some (w_cancelChan w))
    as (w & Hmu & Hw & Hpc & Ht & Hd).
  { vm_compute in Hrun. injection Hrun as <- <-.
    eexists. repeat split; reflexivity. }
  assert (Hne : "s" ≠ "") by discriminate.
  destruct (X14_cancel_before_info_locks_the_server "." join "s" 0%nat w st st'
              [GET_progress ""] rs' Hreach Hne Hmu Hw Hpc Ht Hd Hrun')
    as (Hmu' & Hall & _).
  destruct (Hall "s" InfoPending Hne) as (Hp & _).
  exists rs, st, w, rs', st'. repeat split; done.
Defined.
